(** * FourT MIDI Community: pricing, session and entitlement model

  A shallow embedding of the community front end
  (server/web/community/app.js) together with the back-end contracts
  the front end talks to.  JavaScript values are modelled as far as
  the functions under study can observe them: numbers that stay in
  the exactly representable integer range are [Z], [NaN] is a value
  of its own, property lookup on an object literal falls back to
  [Object.prototype]. *)

From stdpp Require Import gmap strings list pretty.
From Stdlib Require Import ZArith Lia.

Local Open Scope string_scope.
Local Open Scope Z_scope.
Local Open Scope list_scope.

(** ** JavaScript values seen by the pricing code *)

Module Js.

Inductive value : Type :=
| VUndefined
| VNum (n : Z)
| VNaN
| VFunction (name : string)
| VObject (tag : string).

(** ToBoolean. *)
Definition truthy (v : value) : bool :=
  match v with
  | VUndefined => false
  | VNum n => negb (Z.eqb n 0)
  | VNaN => false
  | VFunction _ => true
  | VObject _ => true
  end.

(** [a || b] *)
Definition or_else (a b : value) : value :=
  if truthy a then a else b.

(** ToNumber: a function or a plain object converts through its
    string form, which is not a numeric literal. *)
Definition to_number (v : value) : value :=
  match v with
  | VNum n => VNum n
  | _ => VNaN
  end.

(** [a - b] *)
Definition sub (a b : value) : value :=
  match to_number a, to_number b with
  | VNum x, VNum y => VNum (x - y)
  | _, _ => VNaN
  end.

(** [Math.max(a, b)]: NaN as soon as one argument converts to NaN. *)
Definition math_max (a b : value) : value :=
  match to_number a, to_number b with
  | VNum x, VNum y => VNum (Z.max x y)
  | _, _ => VNaN
  end.

(** The properties every ordinary object inherits from
    [Object.prototype]. *)
Definition object_prototype : list (string * value) :=
  [ ("constructor", VFunction "Object");
    ("__defineGetter__", VFunction "__defineGetter__");
    ("__defineSetter__", VFunction "__defineSetter__");
    ("hasOwnProperty", VFunction "hasOwnProperty");
    ("__lookupGetter__", VFunction "__lookupGetter__");
    ("__lookupSetter__", VFunction "__lookupSetter__");
    ("isPrototypeOf", VFunction "isPrototypeOf");
    ("propertyIsEnumerable", VFunction "propertyIsEnumerable");
    ("toString", VFunction "toString");
    ("valueOf", VFunction "valueOf");
    ("__proto__", VObject "Object.prototype");
    ("toLocaleString", VFunction "toLocaleString") ].

Fixpoint assoc (k : string) (l : list (string * value)) : option value :=
  match l with
  | [] => None
  | (k', v) :: l' => if String.eqb k k' then Some v else assoc k l'
  end.

Definition inherited (k : string) : bool :=
  match assoc k object_prototype with Some _ => true | None => false end.

(** [obj[k]] for an object literal whose own properties are [own]:
    own properties first, then the prototype, else [undefined]. *)
Definition get (own : gmap string Z) (k : string) : value :=
  match own !! k with
  | Some n => VNum n
  | None =>
      match assoc k object_prototype with
      | Some v => v
      | None => VUndefined
      end
  end.

End Js.

(** ** Rank/Pricing engine (app.js, getDownloadCost) *)

Module Pricing.
Import Js.

Definition baseCosts : gmap string Z :=
  <["normal" := 3]> (<["premium" := 8]> (<["exclusive" := 15]> ∅)).

Definition discounts : gmap string Z :=
  <["newcomer" := 0]> (<["player" := 1]> (<["contributor" := 1]>
    (<["artist" := 2]> (<["star" := 3]> (<["legend" := 99]> ∅))))).

Definition getDownloadCost (rank midiType : string) : value :=
  let base := or_else (get baseCosts midiType) (VNum 3) in
  let discount := or_else (get discounts rank) (VNum 0) in
  math_max (VNum 0) (sub base discount).

(** The enumerations of the data model and their wire names. *)
Inductive tier : Type := Normal | Premium | Exclusive.
Inductive rank : Type := Newcomer | Player | Contributor | Artist | Star | Legend.

Definition tier_name (t : tier) : string :=
  match t with
  | Normal => "normal" | Premium => "premium" | Exclusive => "exclusive"
  end.

Definition rank_name (r : rank) : string :=
  match r with
  | Newcomer => "newcomer" | Player => "player"
  | Contributor => "contributor" | Artist => "artist"
  | Star => "star" | Legend => "legend"
  end.

(** The price table as the specification words it. *)
Definition base_cost (t : tier) : Z :=
  match t with Normal => 3 | Premium => 8 | Exclusive => 15 end.

Definition rank_discount (r : rank) : Z :=
  match r with
  | Newcomer => 0 | Player => 1 | Contributor => 1
  | Artist => 2 | Star => 3 | Legend => 99
  end.

Definition price (t : tier) (r : rank) : Z :=
  Z.max 0 (base_cost t - rank_discount r).

End Pricing.


(** ** Client session state and its effects (app.js, "State" and "Auth Functions") *)

Module Session.

(** A value that is a string when present: what [localStorage.getItem]
    returns and what the token fields of a JSON body hold. *)
Inductive jsstr : Type :=
| Null
| Undefined
| Str (s : string).

(** ToBoolean: the empty string is falsy, like [null] and [undefined]. *)
Definition present (t : jsstr) : bool :=
  match t with
  | Str s => negb (String.eqb s "")
  | _ => false
  end.

(** String conversion, as done by template literals and by
    [localStorage.setItem]. *)
Definition to_string (t : jsstr) : string :=
  match t with
  | Null => "null"
  | Undefined => "undefined"
  | Str s => s
  end.

(** [t || d] for a string default. *)
Definition str_or (t : jsstr) (d : string) : string :=
  match t with
  | Str s => if String.eqb s "" then d else s
  | _ => d
  end.

Record user : Type := mkUser {
  username : string;
  rank : jsstr;
  points : Z
}.

(** JavaScript strings are sequences of UTF-16 code units. *)
Abbreviation ustring := (list N).

(** Request bodies, before [JSON.stringify]. *)
Inductive payload : Type :=
| BodyRefresh (refresh_token : jsstr)
| BodyLogin (email password : string)
| BodyStars (stars : Z)
| BodyContent (content : ustring).

Record request : Type := mkRequest {
  req_method : string;
  req_url : string;
  req_headers : gmap string string;
  req_body : option payload
}.

(** The fields of a JSON response body that the client reads. *)
Record body : Type := mkBody {
  access_token : jsstr;
  refresh_token : jsstr;
  body_user : option user;
  message : jsstr;
  file_path : jsstr;
  detail : jsstr
}.

(** Outcome of one [fetch]: the promise rejects, or a response arrives
    whose [json()] either yields a body or rejects ([None]). *)
Inductive fetch_result : Type :=
| NetworkError
| Response (ok : bool) (json : option body).

(** The module-level variables and [localStorage]. *)
Record session : Type := mkSession {
  currentUser : option user;
  accessToken : jsstr;
  refreshToken : jsstr;
  localStorage : gmap string string
}.

(** Updates of the page that are not toasts or modals. *)
Inductive dom_event : Type :=
| ShowUser (u : option user)
| HighlightStars (stars : Z)
| PrependComment (c : body)
| ClearCommentInput.

(** Everything else a handler can touch: the network, the page, the
    console, and the async calls it starts without awaiting them. *)
Record effects : Type := mkEffects {
  requests : list request;
  toasts : list (jsstr * string);
  modals : gset string;
  page : list dom_event;
  console : list string;
  saved_files : list string;
  spawned : list string
}.

Record world : Type := mkWorld {
  sess : session;
  eff : effects
}.

Definition no_effects : effects :=
  mkEffects [] [] ∅ [] [] [] [].

(** State-passing computations over the world. *)
Definition M (A : Type) : Type := world → A * world.

Definition ret {A} (a : A) : M A := fun w => (a, w).

Definition bind {A B} (c : M A) (k : A → M B) : M B :=
  fun w => let '(a, w') := c w in k a w'.

Notation "x <~ c ;; k" := (bind c (fun x => k))
  (at level 100, c at next level, right associativity).
Notation "c ;;; k" := (bind c (fun _ => k))
  (at level 100, right associativity).

Definition get_session : M session := fun w => (sess w, w).

Definition put_session (s : session) : M unit :=
  fun w => (tt, mkWorld s (eff w)).

Definition modify_effects (f : effects → effects) : M unit :=
  fun w => (tt, mkWorld (sess w) (f (eff w))).

Definition API_BASE : string := "/api".

Definition localStorage_getItem (k : string) (s : session) : jsstr :=
  match localStorage s !! k with
  | Some v => Str v
  | None => Null
  end.

Definition localStorage_setItem (k : string) (v : jsstr) (s : session) : session :=
  mkSession (currentUser s) (accessToken s) (refreshToken s)
            (<[k := to_string v]> (localStorage s)).

Definition localStorage_removeItem (k : string) (s : session) : session :=
  mkSession (currentUser s) (accessToken s) (refreshToken s)
            (delete k (localStorage s)).

(** The state right after the script is loaded. *)
Definition initial_session (storage : gmap string string) : session :=
  let s0 := mkSession None Null Null storage in
  mkSession None (localStorage_getItem "access_token" s0)
            (localStorage_getItem "refresh_token" s0) storage.

Definition log_request (r : request) (e : effects) : effects :=
  mkEffects (requests e ++ [r]) (toasts e) (modals e) (page e) (console e)
            (saved_files e) (spawned e).

Definition console_error (msg : string) : M unit :=
  modify_effects (fun e =>
    mkEffects (requests e) (toasts e) (modals e) (page e) (console e ++ [msg])
              (saved_files e) (spawned e)).

Definition showToast (msg : jsstr) (type : string) : M unit :=
  modify_effects (fun e =>
    mkEffects (requests e) (toasts e ++ [(msg, type)]) (modals e) (page e)
              (console e) (saved_files e) (spawned e)).

Definition closeModals : M unit :=
  modify_effects (fun e =>
    mkEffects (requests e) (toasts e) ∅ (page e) (console e)
              (saved_files e) (spawned e)).

Definition showLoginModal : M unit :=
  closeModals ;;;
  modify_effects (fun e =>
    mkEffects (requests e) (toasts e) ({["login-modal"]} ∪ modals e) (page e)
              (console e) (saved_files e) (spawned e)).

Definition dom (d : dom_event) : M unit :=
  modify_effects (fun e =>
    mkEffects (requests e) (toasts e) (modals e) (page e ++ [d]) (console e)
              (saved_files e) (spawned e)).

(** Whether updateAuthUI throws: with a user, on a page that has the
    element for the user's initial ([user_initial]: "user-initial"
    inside an existing "nav-user"), taking the first letter of an empty
    user name in upper case fails (a missing user name counts as
    empty).  Without a user nothing can throw. *)
Definition updateAuthUI_throws (user_initial : bool) (u : option user) : bool :=
  match u with
  | Some usr => user_initial && String.eqb (username usr) ""
  | None => false
  end.

(** updateAuthUI: the navigation switches to the view for [u]; the
    result tells whether the function threw on the way. *)
Definition updateAuthUI (user_initial : bool) (u : option user) : M bool :=
  dom (ShowUser u) ;;;
  ret (updateAuthUI_throws user_initial u).

Definition save_file (name : string) : M unit :=
  modify_effects (fun e =>
    mkEffects (requests e) (toasts e) (modals e) (page e) (console e)
              (saved_files e ++ [name]) (spawned e)).

(** An async function called without [await]: it runs later. *)
Definition spawn (name : string) : M unit :=
  modify_effects (fun e =>
    mkEffects (requests e) (toasts e) (modals e) (page e) (console e)
              (saved_files e) (spawned e ++ [name])).

(** [String.prototype.trim]: the white space and line terminator code
    units of ECMAScript. *)
Definition is_whitespace (c : N) : bool :=
  ((9 <=? c) && (c <=? 13) || (c =? 32) || (c =? 160) || (c =? 5760)
   || (8192 <=? c) && (c <=? 8202) || (c =? 8232) || (c =? 8233)
   || (c =? 8239) || (c =? 8287) || (c =? 12288) || (c =? 65279))%N.

Fixpoint trim_start (l : ustring) : ustring :=
  match l with
  | [] => []
  | c :: l' => if is_whitespace c then trim_start l' else l
  end.

Definition trim (l : ustring) : ustring :=
  rev (trim_start (rev (trim_start l))).

(** The [options] argument of [fetchWithAuth]. *)
Record options : Type := mkOptions {
  opt_method : option string;
  opt_headers : gmap string string;
  opt_body : option payload
}.

Definition no_options : options := mkOptions None ∅ None.

Definition json_headers : gmap string string :=
  {["Content-Type" := "application/json"]}.

(** Sending a request is synchronous; the response arrives later. *)
Definition send (r : request) : M unit :=
  modify_effects (log_request r).

(** The request [fetchWithAuth(url, options)] builds: the JSON content
    type unless the caller's headers override it, and the bearer token
    only when an access token is held. *)
Definition auth_request (s : session) (url : string) (o : options) : request :=
  let headers := opt_headers o ∪ json_headers in
  let headers :=
    if present (accessToken s)
    then <["Authorization" := "Bearer " +:+ to_string (accessToken s)]> headers
    else headers in
  mkRequest (default "GET" (opt_method o)) (API_BASE +:+ url) headers (opt_body o).

(** The request refreshAccessToken sends for the token it holds. *)
Definition refresh_request (s : session) : request :=
  mkRequest "POST" (API_BASE +:+ "/auth/refresh") json_headers
            (Some (BodyRefresh (refreshToken s))).

Section Handlers.

(** The network: the outcome of a request may depend on every request
    sent so far (the last element of the list is the current one). *)
Variable env : list request → fetch_result.

(** The page: whether it has the element that shows the initial of
    the user. *)
Variable user_initial : bool.

Definition fetch (r : request) : M fetch_result :=
  send r ;;;
  fun w => (env (requests (eff w)), w).

Definition fetchWithAuth (url : string) (o : options) : M fetch_result :=
  s <~ get_session ;;
  fetch (auth_request s url o).

Definition refreshAccessToken : M bool :=
  s <~ get_session ;;
  if negb (present (refreshToken s)) then ret false
  else
    r <~ fetch (refresh_request s) ;;
    match r with
    | Response true (Some data) =>
        let s1 := mkSession (currentUser s) (access_token data)
                            (refresh_token data) (localStorage s) in
        let s2 := localStorage_setItem "access_token" (accessToken s1) s1 in
        let s3 := localStorage_setItem "refresh_token" (refreshToken s2) s2 in
        put_session s3 ;;;
        ret true
    | Response true None | NetworkError =>
        console_error "Token refresh failed:" ;;;
        ret false
    | Response false _ => ret false
    end.

Definition logout : M unit :=
  s <~ get_session ;;
  let s1 := mkSession None Null Null (localStorage s) in
  let s2 := localStorage_removeItem "access_token" s1 in
  let s3 := localStorage_removeItem "refresh_token" s2 in
  put_session s3 ;;;
  updateAuthUI user_initial None ;;;
  showToast (Str "Đã đăng xuất") "info".

(** checkAuth up to its first [await]: without an access token it
    only updates the page; otherwise the "who am I" request goes out
    and the function is suspended ([true]). *)
Definition checkAuth_begin : M bool :=
  s <~ get_session ;;
  if negb (present (accessToken s)) then
    updateAuthUI user_initial None ;;;
    ret false
  else
    send (auth_request s "/auth/me" no_options) ;;;
    ret true.

(** checkAuth from the moment the response is there.  The body of
    "/auth/me" is the user, read here from [body_user].  When
    updateAuthUI throws, the catch block runs after the user has been
    set. *)
Definition checkAuth_resume (r : fetch_result) : M unit :=
  match r with
  | Response true (Some me) =>
      s <~ get_session ;;
      put_session (mkSession (body_user me) (accessToken s) (refreshToken s)
                             (localStorage s)) ;;;
      threw <~ updateAuthUI user_initial (body_user me) ;;
      if threw : bool then
        console_error "Auth check failed:" ;;;
        updateAuthUI user_initial None ;;;
        ret tt
      else ret tt
  | Response false _ =>
      refreshed <~ refreshAccessToken ;;
      if refreshed : bool then spawn "checkAuth" else logout
  | Response true None | NetworkError =>
      console_error "Auth check failed:" ;;;
      updateAuthUI user_initial None ;;;
      ret tt
  end.

(** checkAuth when nothing else runs while it is suspended. *)
Definition checkAuth : M unit :=
  suspended <~ checkAuth_begin ;;
  if suspended : bool then
    r <~ (fun w => (env (requests (eff w)), w)) ;;
    checkAuth_resume r
  else ret tt.

Definition handleLogin (email password : string) : M unit :=
  r <~ fetch (mkRequest "POST" (API_BASE +:+ "/auth/login") json_headers
                        (Some (BodyLogin email password))) ;;
  match r with
  | Response true (Some data) =>
      s <~ get_session ;;
      let s1 := mkSession (body_user data) (access_token data)
                          (refresh_token data) (localStorage s) in
      let s2 := localStorage_setItem "access_token" (accessToken s1) s1 in
      let s3 := localStorage_setItem "refresh_token" (refreshToken s2) s2 in
      put_session s3 ;;;
      threw <~ updateAuthUI user_initial (currentUser s3) ;;
      if threw : bool then
        showToast (Str "Lỗi kết nối server") "error"
      else
        closeModals ;;;
        showToast (Str "Đăng nhập thành công!") "success"
  | Response false (Some error) =>
      showToast (Str (str_or (detail error) "Đăng nhập thất bại")) "error"
  | Response _ None | NetworkError =>
      showToast (Str "Lỗi kết nối server") "error"
  end.

Definition midi_url (midiId : N) (action : string) : string :=
  "/community/midi/" +:+ pretty midiId +:+ action.

Definition downloadMidi (midiId : N) : M unit :=
  s <~ get_session ;;
  match currentUser s with
  | None =>
      showToast (Str "Vui lòng đăng nhập để tải MIDI") "info" ;;;
      showLoginModal
  | Some _ =>
      r <~ fetchWithAuth (midi_url midiId "/download")
                         (mkOptions (Some "POST") ∅ None) ;;
      match r with
      | Response true (Some data) =>
          showToast (message data) "success" ;;;
          f <~ fetchWithAuth (to_string (file_path data)) no_options ;;
          match f with
          | Response true _ =>
              save_file ("midi_" +:+ pretty midiId +:+ ".mid") ;;;
              spawn "checkAuth"
          | Response false _ =>
              showToast (Str "Không thể tải file") "error" ;;;
              spawn "checkAuth"
          | NetworkError =>
              console_error "Download error:" ;;;
              showToast (Str "Lỗi kết nối server") "error"
          end
      | Response false (Some data) =>
          showToast (Str (str_or (detail data) "Tải xuống thất bại")) "error"
      | Response _ None | NetworkError =>
          console_error "Download error:" ;;;
          showToast (Str "Lỗi kết nối server") "error"
      end
  end.

Definition rateMidi (midiId : N) (stars : Z) : M unit :=
  s <~ get_session ;;
  match currentUser s with
  | None => showToast (Str "Vui lòng đăng nhập để đánh giá") "info"
  | Some _ =>
      r <~ fetchWithAuth (midi_url midiId "/rate")
                         (mkOptions (Some "POST") ∅ (Some (BodyStars stars))) ;;
      match r with
      | Response true (Some _) =>
          showToast (Str ("Đã đánh giá " +:+ pretty stars +:+ " sao!")) "success" ;;;
          dom (HighlightStars stars)
      | Response false (Some error) =>
          showToast (Str (str_or (detail error) "Đánh giá thất bại")) "error"
      | Response _ None | NetworkError =>
          showToast (Str "Lỗi kết nối server") "error"
      end
  end.

Definition addComment (midiId : N) (input_value : ustring) : M unit :=
  let content := trim input_value in
  match content with
  | [] => ret tt
  | _ :: _ =>
      r <~ fetchWithAuth (midi_url midiId "/comments")
                         (mkOptions (Some "POST") ∅ (Some (BodyContent content))) ;;
      match r with
      | Response true (Some comment) =>
          dom (PrependComment comment) ;;;
          dom ClearCommentInput ;;;
          showToast (Str "Bình luận đã được gửi! +1 điểm") "success" ;;;
          spawn "checkAuth"
      | Response false (Some error) =>
          showToast (Str (str_or (detail error) "Gửi bình luận thất bại")) "error"
      | Response _ None | NetworkError =>
          showToast (Str "Lỗi kết nối server") "error"
      end
  end.

End Handlers.


End Session.

(** ** Back-end contracts the client relies on

    The server that implements the ledger, the token service and the
    rating and comment store is not part of the front-end sources; its
    operations are modelled below from the specification. *)

Module Backend.

Inductive error : Type :=
| Unauthorized
| NotFound
| InvalidInput
| InsufficientPoints.

Inductive result (A : Type) : Type :=
| Ok (a : A)
| Err (e : error).
Arguments Ok {A} a.
Arguments Err {A} e.

Abbreviation user_id := nat.
Abbreviation item_id := nat.

(** *** Ledger and entitlement gate *)

Inductive entry_kind : Type := Credited | Debited.

Record ledger_entry : Type := mkEntry {
  entry_kind_of : entry_kind;
  entry_amount : Z;
  entry_reason : string
}.

Record account : Type := mkAccount {
  acc_rank : Pricing.rank;
  balance : Z;
  history : list ledger_entry
}.

Record item : Type := mkItem {
  item_tier : Pricing.tier;
  download_count : Z
}.

Record download_record : Type := mkDownload {
  dl_user : user_id;
  dl_item : item_id;
  dl_time : Z
}.

Record comment_record : Type := mkComment {
  cm_item : item_id;
  cm_author : user_id;
  cm_content : Session.ustring;
  cm_time : Z
}.

Record store : Type := mkStore {
  users : gmap user_id account;
  items : gmap item_id item;
  downloads : list download_record;
  ratings : gmap (user_id * item_id) Z;
  comments : list comment_record
}.

Definition empty_store : store := mkStore ∅ ∅ [] ∅ [].

Definition set_account (uid : user_id) (a : account) (st : store) : store :=
  mkStore (<[uid := a]> (users st)) (items st) (downloads st)
          (ratings st) (comments st).

Definition signup_bonus : Z := 5.

(** Modelled from the spec: registration, which is server code absent
    from the sources; a new user starts as newcomer with the signup
    bonus (section 3, User lifecycle; section 8, end-to-end scenario). *)
Definition register (uid : user_id) (st : store) : result store :=
  match users st !! uid with
  | Some _ => Err InvalidInput
  | None =>
      Ok (set_account uid
            (mkAccount Pricing.Newcomer signup_bonus
                       [mkEntry Credited signup_bonus "registration"]) st)
  end.

(** Modelled from the spec: [credit(userId, amount, reason)] of the
    ledger (section 4.3), which is server code absent from the sources:
    the amount is positive, the balance is incremented and the reason
    recorded. *)
Definition credit (uid : user_id) (amount : Z) (reason : string) (st : store)
  : result store :=
  if amount <=? 0 then Err InvalidInput
  else
    match users st !! uid with
    | None => Err NotFound
    | Some a =>
        Ok (set_account uid
              (mkAccount (acc_rank a) (balance a + amount)
                         (history a ++ [mkEntry Credited amount reason])) st)
    end.

(** Modelled from the spec: [debit(userId, amount, reason)] of the
    ledger (section 4.3), which is server code absent from the sources:
    check-then-decrement in one step, failing with InsufficientPoints
    if the balance is below the amount. *)
Definition debit (uid : user_id) (amount : Z) (reason : string) (st : store)
  : result store :=
  match users st !! uid with
  | None => Err NotFound
  | Some a =>
      if balance a <? amount then Err InsufficientPoints
      else
        Ok (set_account uid
              (mkAccount (acc_rank a) (balance a - amount)
                         (history a ++ [mkEntry Debited amount reason])) st)
  end.

(** Modelled from the spec: [requestDownload(userId, itemId)] of the
    entitlement gate (section 4.4, steps 1 to 5), which is server code
    absent from the sources.  The result carries the new balance. *)
Definition requestDownload (uid : user_id) (iid : item_id) (now : Z) (st : store)
  : result (Z * store) :=
  match items st !! iid, users st !! uid with
  | None, _ => Err NotFound
  | _, None => Err NotFound
  | Some it, Some a =>
      let cost := Pricing.price (item_tier it) (acc_rank a) in
      let charged :=
        if cost =? 0 then Ok st
        else debit uid cost ("download:" +:+ pretty iid) st in
      match charged with
      | Err e => Err e
      | Ok st1 =>
          let st2 :=
            mkStore (users st1)
                    (<[iid := mkItem (item_tier it) (download_count it + 1)]>
                       (items st1))
                    (downloads st1 ++ [mkDownload uid iid now])
                    (ratings st1) (comments st1) in
          Ok (default 0 (balance <$> users st2 !! uid), st2)
      end
  end.

(** *** Rating and comment store *)

(** The aggregate of an item, recomputed from the stored ratings. *)
Definition rating_sum_count (iid : item_id) (rs : gmap (user_id * item_id) Z)
  : Z * Z :=
  map_fold (fun k stars acc =>
              if decide (k.2 = iid) then (acc.1 + stars, acc.2 + 1) else acc)
           (0, 0) rs.

(** Modelled from the spec: [rate(userId, itemId, stars)] of the rating
    store (sections 3 and 4.5), which is server code absent from the
    sources: stars outside 1..5 are invalid input, otherwise the rating
    of the pair is inserted or replaced and the aggregate recomputed. *)
Definition rate (uid : user_id) (iid : item_id) (stars : Z) (st : store)
  : result ((Z * Z) * store) :=
  if (1 <=? stars) && (stars <=? 5) then
    let rs := <[(uid, iid) := stars]> (ratings st) in
    Ok (rating_sum_count iid rs,
        mkStore (users st) (items st) (downloads st) rs (comments st))
  else Err InvalidInput.

Definition max_comment_length : nat := 2000.

Definition comment_reward : Z := 1.

(** Modelled from the spec: [comment(userId, itemId, content)] of the
    comment store (section 4.5), which is server code absent from the
    sources: the content is trimmed, rejected when empty or longer than
    the maximum, otherwise appended, and the author is rewarded once. *)
Definition comment (uid : user_id) (iid : item_id) (content : Session.ustring)
    (now : Z) (st : store) : result store :=
  let text := Session.trim content in
  match text with
  | [] => Err InvalidInput
  | _ :: _ =>
      if (max_comment_length <? length text)%nat then Err InvalidInput
      else
        match credit uid comment_reward "comment" st with
        | Err e => Err e
        | Ok st1 =>
            Ok (mkStore (users st1) (items st1) (downloads st1) (ratings st1)
                        (comments st1 ++ [mkComment iid uid text now]))
        end
  end.

(** Operations on the ledger, as a request stream. *)
Inductive ledger_op : Type :=
| OpRegister (uid : user_id)
| OpCredit (uid : user_id) (amount : Z) (reason : string)
| OpDebit (uid : user_id) (amount : Z) (reason : string)
| OpDownload (uid : user_id) (iid : item_id) (now : Z)
| OpComment (uid : user_id) (iid : item_id) (content : Session.ustring) (now : Z).

Definition ledger_exec (op : ledger_op) (st : store) : result store :=
  match op with
  | OpRegister uid => register uid st
  | OpCredit uid amount reason => credit uid amount reason st
  | OpDebit uid amount reason => debit uid amount reason st
  | OpDownload uid iid now =>
      match requestDownload uid iid now st with
      | Ok (_, st') => Ok st'
      | Err e => Err e
      end
  | OpComment uid iid content now => comment uid iid content now st
  end.

(** A failed operation commits nothing. *)
Definition ledger_step (st : store) (op : ledger_op) : store :=
  match ledger_exec op st with
  | Ok st' => st'
  | Err _ => st
  end.

Definition ledger_run (st : store) (ops : list ledger_op) : store :=
  foldl ledger_step st ops.

Definition balance_of (uid : user_id) (st : store) : option Z :=
  balance <$> users st !! uid.

Definition balances_nonneg (st : store) : Prop :=
  ∀ uid a, users st !! uid = Some a → 0 ≤ balance a.

End Backend.

(** ** Token service *)

Module Tokens.
Import Backend.

Inductive status : Type := Active | Rotated | Revoked.

(** A refresh token is named by its position in the server-side table. *)
Abbreviation refresh_id := nat.

Record refresh_entry : Type := mkRefresh {
  rt_owner : user_id;
  rt_status : status;
  rt_expiry : Z
}.

(** Access tokens are stateless: they carry the user and an expiry,
    and verify only when properly signed. *)
Record access : Type := mkAccess {
  at_user : user_id;
  at_expiry : Z;
  at_signed : bool
}.

Definition access_ttl : Z := 900.
Definition refresh_ttl : Z := 604800.

Abbreviation table := (list refresh_entry).

(** Modelled from the spec: [issue(userId)] of the token service
    (section 4.2), which is server code absent from the sources: a
    fresh pair, the refresh token persisted for the user and active. *)
Definition issue (uid : user_id) (now : Z) (tb : table)
  : (access * refresh_id) * table :=
  ((mkAccess uid (now + access_ttl) true, length tb),
   (tb ++ [mkRefresh uid Active (now + refresh_ttl)])%list).

(** Modelled from the spec: [verifyAccess(token)] (section 4.2), absent
    from the sources: fails if the signature is invalid or the token
    has expired. *)
Definition verifyAccess (a : access) (now : Z) : result user_id :=
  if at_signed a && (now <? at_expiry a) then Ok (at_user a)
  else Err Unauthorized.

(** Modelled from the spec: [refresh(refreshToken)] (section 4.2),
    absent from the sources: fails if the token is unknown, already
    rotated (or revoked) or expired; on success the presented token is
    invalidated and a new pair issued. *)
Definition refresh (t : refresh_id) (now : Z) (tb : table)
  : result ((access * refresh_id) * table) :=
  match tb !! t with
  | None => Err Unauthorized
  | Some e =>
      match rt_status e with
      | Active =>
          if now <? rt_expiry e then
            Ok (issue (rt_owner e) now
                      (<[t := mkRefresh (rt_owner e) Rotated (rt_expiry e)]> tb))
          else Err Unauthorized
      | Rotated | Revoked => Err Unauthorized
      end
  end.

Definition revoke_entry (uid : user_id) (e : refresh_entry) : refresh_entry :=
  match rt_status e with
  | Active =>
      if decide (rt_owner e = uid)
      then mkRefresh (rt_owner e) Revoked (rt_expiry e)
      else e
  | Rotated | Revoked => e
  end.

(** Modelled from the spec: [revoke(userId)] (section 4.2), absent from
    the sources: every active refresh token of the user is revoked. *)
Definition revoke (uid : user_id) (tb : table) : table :=
  revoke_entry uid <$> tb.

Inductive token_op : Type :=
| OpIssue (uid : user_id) (now : Z)
| OpRefresh (t : refresh_id) (now : Z)
| OpRevoke (uid : user_id).

Definition token_step (tb : table) (op : token_op) : table :=
  match op with
  | OpIssue uid now => (issue uid now tb).2
  | OpRefresh t now =>
      match refresh t now tb with
      | Ok (_, tb') => tb'
      | Err _ => tb
      end
  | OpRevoke uid => revoke uid tb
  end.

Definition token_run (tb : table) (ops : list token_op) : table :=
  foldl token_step tb ops.

(** The terminal states of a refresh token. *)
Definition spent (t : refresh_id) (tb : table) : Prop :=
  ∃ e, tb !! t = Some e ∧ rt_status e ≠ Active.

End Tokens.

(** ** Sample data: one user, one server *)

Module Samples.
Import Session.

Definition alice : user := mkUser "alice" (Str "player") 5.

Definition empty_body : body :=
  mkBody Undefined Undefined None Undefined Undefined Undefined.

Definition login_body : body :=
  mkBody (Str "a1") (Str "r1") (Some alice) Undefined Undefined Undefined.

Definition rotated_body : body :=
  mkBody (Str "a2") (Str "r2") None Undefined Undefined Undefined.

Definition me_body : body :=
  mkBody Undefined Undefined (Some alice) Undefined Undefined Undefined.

Definition download_body : body :=
  mkBody Undefined Undefined None (Str "Downloaded") (Str "/files/7")
         Undefined.

Definition denied_body : body :=
  mkBody Undefined Undefined None Undefined Undefined (Str "Not authenticated").

Definition authorized (r : request) : bool :=
  match req_headers r !! "Authorization" with
  | Some h => String.eqb h "Bearer a1" || String.eqb h "Bearer a2"
  | None => false
  end.

(** A server that knows alice: it answers by the last request sent. *)
Definition server (log : list request) : fetch_result :=
  match last log with
  | None => NetworkError
  | Some r =>
      if String.eqb (req_url r) "/api/auth/login" then
        Response true (Some login_body)
      else if String.eqb (req_url r) "/api/auth/refresh" then
        match req_body r with
        | Some (BodyRefresh (Str "r1")) => Response true (Some rotated_body)
        | _ => Response false (Some denied_body)
        end
      else if negb (authorized r) then Response false (Some denied_body)
      else if String.eqb (req_url r) "/api/auth/me" then
        Response true (Some me_body)
      else Response true (Some download_body)
  end.

(** A server that is down. *)
Definition offline (log : list request) : fetch_result := NetworkError.

(** A server that answers a refresh with success but hands the
    presented refresh token "r1" back instead of a new one. *)
Definition echo_body : body :=
  mkBody (Str "a2") (Str "r1") None Undefined Undefined Undefined.

Definition echo_server (log : list request) : fetch_result :=
  Response true (Some echo_body).

(** A server that answers with success and a body that does not
    decode. *)
Definition garbled_server (log : list request) : fetch_result :=
  Response true None.

Definition fresh_world : world :=
  mkWorld (initial_session ∅) no_effects.

(** alice has logged in. *)
Definition logged_in_world : world :=
  (handleLogin server true "alice@example.org" "secret" fresh_world).2.

(** alice logs out while a checkAuth is waiting for its response, and
    the response then arrives. *)
Definition raced_world : world :=
  let w1 := (checkAuth_begin true logged_in_world).2 in
  let answer := server (requests (eff w1)) in
  let w2 := (logout true w1).2 in
  (checkAuth_resume server true answer w2).2.

Definition spaces : ustring := [32; 9; 160; 10]%N.

Definition hello : ustring := [32; 104; 105; 32]%N.

(** A catalog with a normal and a premium item and no user yet. *)
Definition catalog : Backend.store :=
  Backend.mkStore ∅
    (<[10%nat := Backend.mkItem Pricing.Normal 0]>
       (<[11%nat := Backend.mkItem Pricing.Premium 0]> ∅))
    [] ∅ [].

(** User 1 registers, downloads the normal item, then asks for the
    premium one. *)
Definition scenario : list Backend.ledger_op :=
  [Backend.OpRegister 1; Backend.OpDownload 1 10 100;
   Backend.OpDownload 1 11 101].

(** User 1 holds refresh token 0. *)
Definition one_token : Tokens.table :=
  (Tokens.issue 1 0 []).2.

Definition token_traffic : list Tokens.token_op :=
  [Tokens.OpIssue 2 5; Tokens.OpRefresh 1 20; Tokens.OpRevoke 2;
   Tokens.OpRefresh 0 30].

End Samples.

(** ** Webhook proxy (server/cloudflare/sepay-webhook-proxy.js) *)

Module Proxy.
Import Session.

Definition NPOINT_URL : string := "https://api.npoint.io/c6878ec0e82ad63a767f".
Definition WEBHOOK_PATH : string := "/sepay/webhook".

(** The incoming request.  Header names are kept in lower case, as a
    [Headers] object does; [in_body] is the text of the body, or the
    message of the error that reading it throws. *)
Record in_request : Type := mkIn {
  in_method : string;
  in_headers : gmap string string;
  in_body : string + string
}.

(** The URL fields the worker reads from the configuration document. *)
Record config : Type := mkConfig {
  fourt_url : jsstr;
  cloudflare_url : jsstr;
  ngrok_url : jsstr;
  bore_url : jsstr;
  server_url : jsstr;
  config_keys : list string
}.

(** A request the worker sends out.  (The copy of the incoming headers
    that the worker cleans up is not used for it.) *)
Record out_request : Type := mkOut {
  out_url : string;
  out_method : string;
  out_headers : gmap string string;
  out_body : option string
}.

(** The answer of the configuration service: the fetch fails with a
    message, or a response arrives whose body yields the configuration
    or an error (it does not decode, or is not an object). *)
Inductive npoint_result : Type :=
| NpointDown (message : string)
| NpointResponse (ok : bool) (status : Z) (json : string + config).

(** The answer of the back end to the forwarded request. *)
Inductive backend_result : Type :=
| BackendDown (message : string)
| BackendResponse (status : Z) (text : string + string).

(** What the worker puts into a response body. *)
Inductive out_body_of : Type :=
| MethodNotAllowed (allowed : list string)
| NpointFailed (status : Z)
| NoTarget (available_keys : list string)
| ProxyError (message : string)
| Raw (text : string).

Record response : Type := mkResponse {
  res_status : Z;
  res_headers : gmap string string;
  res_body : out_body_of
}.

Record outcome : Type := mkOutcome {
  answer : response;
  sent : list out_request;
  logged : list string
}.

(** [a || b] on values that are strings when present. *)
Definition js_or (a b : jsstr) : jsstr :=
  if present a then a else b.

(** [headers.get(name) || ""] *)
Definition header_or_empty (h : gmap string string) (name : string) : string :=
  str_or (match h !! name with Some v => Str v | None => Null end) "".

(** The statuses a [Response] with a body can be built with: within
    200..599 and not a null-body status; otherwise the constructor
    throws. *)
Definition status_allows_body (status : Z) : bool :=
  (200 <=? status) && (status <=? 599)
  && negb ((status =? 204) || (status =? 205) || (status =? 304)).

Definition json_header : gmap string string :=
  {["Content-Type" := "application/json"]}.

Definition proxy_error (message : string) (sent : list out_request)
    (logged : list string) : outcome :=
  mkOutcome (mkResponse 500 json_header (ProxyError message)) sent
            (logged ++ ["Proxy error:"]).

Definition targetUrl_of (data : config) : jsstr :=
  js_or (js_or (js_or (js_or (js_or (fourt_url data)
                                    (Str "https://fourt.io.vn"))
                             (cloudflare_url data))
                      (ngrok_url data))
               (bore_url data))
        (server_url data).

Definition config_request : out_request :=
  mkOut NPOINT_URL "GET" {["Cache-Control" := "no-cache"]} None.

Definition forward_request (req : in_request) (target body : string)
  : out_request :=
  mkOut (target +:+ WEBHOOK_PATH) "POST"
        (<["Content-Type" := "application/json"]>
           (<["X-Forwarded-For" := header_or_empty (in_headers req) "cf-connecting-ip"]>
              (<["X-Original-Host" := header_or_empty (in_headers req) "host"]>
                 (<["Authorization" := header_or_empty (in_headers req) "authorization"]>
                    ∅))))
        (Some body).

Section Worker.

Variable npoint : npoint_result.
Variable backend : out_request → backend_result.

(** The message of the error the [Response] constructor throws for a
    status it refuses. *)
Variable refused : Z → string.

Definition fetch (req : in_request) : outcome :=
  if negb (String.eqb (in_method req) "POST") then
    mkOutcome (mkResponse 405 json_header (MethodNotAllowed ["POST"])) [] []
  else
    match npoint with
    | NpointDown message => proxy_error message [config_request] []
    | NpointResponse false status _ =>
        mkOutcome (mkResponse 502 json_header (NpointFailed status))
                  [config_request] []
    | NpointResponse true _ (inl message) =>
        proxy_error message [config_request] []
    | NpointResponse true _ (inr data) =>
        let targetUrl := targetUrl_of data in
        if negb (present targetUrl) then
          mkOutcome (mkResponse 500 json_header (NoTarget (config_keys data)))
                    [config_request] []
        else
          match in_body req with
          | inl message => proxy_error message [config_request] []
          | inr body =>
              let target := to_string targetUrl in
              let note := "Proxying to: " +:+ target +:+ WEBHOOK_PATH in
              let fwd := forward_request req target body in
              match backend fwd with
              | BackendDown message =>
                  proxy_error message [config_request; fwd] [note]
              | BackendResponse _ (inl message) =>
                  proxy_error message [config_request; fwd] [note]
              | BackendResponse status (inr text) =>
                  if status_allows_body status then
                    mkOutcome
                      (mkResponse status
                         (<["Content-Type" := "application/json"]>
                            (<["X-Proxied-To" := target]> ∅))
                         (Raw text))
                      [config_request; fwd] [note]
                  else
                    proxy_error (refused status) [config_request; fwd] [note]
              end
          end
    end.

End Worker.

End Proxy.

(** ** MIDI preview player (app.js, "MIDI Player Functions") *)

Module Player.

(** What reaches the MIDIjs engine, and what it reports back. *)
Inductive engine_event : Type :=
| CallPlay (url : string) (started : bool)
| CallStop
| Ended.

Record player : Type := mkPlayer {
  currentlyPlayingId : option N;
  currentlyPlayingTitle : string;
  isPlaying : bool;
  engine : list engine_event;
  player_toasts : list (string * string);
  player_console : list string;
  ui_updates : nat
}.

Definition initial_player : player :=
  mkPlayer None "" false [] [] [] 0.

(** ToBoolean of [currentlyPlayingId]: [null] and [0] are falsy. *)
Definition has_track (p : player) : bool :=
  match currentlyPlayingId p with
  | Some id => negb (id =? 0)%N
  | None => false
  end.

Definition preview_url (midiId : N) : string :=
  Session.API_BASE +:+ "/community/midi/" +:+ pretty midiId +:+ "/preview".

Definition resetPlayerState (p : player) : player :=
  mkPlayer (currentlyPlayingId p) (currentlyPlayingTitle p) false
           (engine p) (player_toasts p) (player_console p) (ui_updates p).

Definition updatePlayerUI (p : player) : player :=
  mkPlayer (currentlyPlayingId p) (currentlyPlayingTitle p) (isPlaying p)
           (engine p) (player_toasts p) (player_console p) (S (ui_updates p)).

Definition record_engine (e : engine_event) (p : player) : player :=
  mkPlayer (currentlyPlayingId p) (currentlyPlayingTitle p) (isPlaying p)
           (engine p ++ [e]) (player_toasts p) (player_console p)
           (ui_updates p).

Definition player_toast (msg type : string) (p : player) : player :=
  mkPlayer (currentlyPlayingId p) (currentlyPlayingTitle p) (isPlaying p)
           (engine p) (player_toasts p ++ [(msg, type)]) (player_console p)
           (ui_updates p).

Definition player_error (msg : string) (p : player) : player :=
  mkPlayer (currentlyPlayingId p) (currentlyPlayingTitle p) (isPlaying p)
           (engine p) (player_toasts p) (player_console p ++ [msg])
           (ui_updates p).

Section Engine.

(** Whether the MIDIjs script is loaded, and whether [MIDIjs.play]
    returns normally for a URL. *)
Variable loaded : bool.
Variable plays : string → bool.

Definition stopMidi (p : player) : player :=
  let p1 := if loaded then record_engine CallStop p else p in
  updatePlayerUI (resetPlayerState p1).

Definition onMidiEnded (p : player) : player :=
  updatePlayerUI (resetPlayerState (record_engine Ended p)).

(** [None]: the unguarded [MIDIjs.stop()] throws because the script is
    not loaded, and nothing after it runs. *)
Definition playMidi (midiId : N) (title : string) (p : player) : option player :=
  if isPlaying p && bool_decide (currentlyPlayingId p = Some midiId) then
    Some (stopMidi p)
  else if isPlaying p && negb loaded then None
  else
    let p1 := if isPlaying p then record_engine CallStop p else p in
    let p2 := mkPlayer (Some midiId) title true
                       (engine p1) (player_toasts p1) (player_console p1)
                       (ui_updates p1) in
    let url := preview_url midiId in
    if loaded && plays url then
      Some (player_toast ("🎵 Đang phát: " +:+ title) "success"
              (updatePlayerUI (record_engine (CallPlay url true) p2)))
    else
      let p3 := if loaded then record_engine (CallPlay url false) p2 else p2 in
      Some (resetPlayerState
              (player_toast "Không thể phát MIDI" "error"
                 (player_error "MIDI playback error:" p3))).

Definition togglePlay (p : player) : option player :=
  if negb (has_track p) then Some p
  else if isPlaying p then Some (stopMidi p)
  else
    match currentlyPlayingId p with
    | Some id => playMidi id (currentlyPlayingTitle p) p
    | None => Some p
    end.

Inductive player_op : Type :=
| DoPlay (midiId : N) (title : string)
| DoStop
| DoToggle
| DoEnded.

(** An operation that throws leaves the state as it found it. *)
Definition player_step (p : player) (op : player_op) : player :=
  match op with
  | DoPlay midiId title => default p (playMidi midiId title p)
  | DoStop => stopMidi p
  | DoToggle => default p (togglePlay p)
  | DoEnded => onMidiEnded p
  end.

Definition player_run (p : player) (ops : list player_op) : player :=
  foldl player_step p ops.

End Engine.

(** No two playbacks overlap: a play that started is followed, if by
    anything, by a stop or by the end of the piece. *)
Fixpoint no_overlap (l : list engine_event) : bool :=
  match l with
  | CallPlay _ true :: ((CallPlay _ _ :: _) as rest) => false
  | _ :: rest => no_overlap rest
  | [] => true
  end.

(** Whether the last thing the engine saw is a play that started. *)
Definition started_last (l : list engine_event) : bool :=
  match last l with
  | Some (CallPlay _ true) => true
  | _ => false
  end.

(** What every player operation keeps true: playbacks do not overlap,
    the flag is set exactly while a started play is the last thing the
    engine saw, never set when the script is missing, and never set
    without a current piece. *)
Definition player_inv (loaded : bool) (p : player) : Prop :=
  no_overlap (engine p) = true
  ∧ isPlaying p = started_last (engine p)
  ∧ (loaded = false → isPlaying p = false)
  ∧ (isPlaying p = true → is_Some (currentlyPlayingId p)).

End Player.

(** ** Page helpers (app.js, "UI Helpers" and "Utility Functions") *)

Module Helpers.
Import Session.

(** [Number.isSafeInteger]: the integers of magnitude below 2^53, on
    which doubles are exact. *)
Definition is_safe_integer (n : Z) : bool :=
  (- 2 ^ 53 <? n) && (n <? 2 ^ 53).

(** [Math.ceil(a / b)] for safe integers [a] and [b], [b] not zero.
    The quotient is computed in doubles, but for safe integers the
    rounding cannot reach the next integer: a quotient that is not
    whole lies at least [1 / b] away from the integers around it,
    which is more than half the spacing of doubles at that quotient
    as long as [a] is below 2^53. *)
Definition ceil_div (a b : Z) : Z := - ((- a) / b).

(** The largest number of page buttons this model renders: the
    markup of more pages nears the limit engines put on the length of
    a string. *)
Definition max_buttons : Z := 1000000.

(** renderPagination: one entry per button, the page number and
    whether it is marked active.  [None] where no list of buttons comes
    out of the model: for numbers that are not safe integers (doubles
    round there), for a positive total over a page size of zero (the
    page count is [Infinity]) and for more than [max_buttons] pages. *)
Definition renderPagination (total page pageSize : Z) : option (list (Z * bool)) :=
  if negb (is_safe_integer total && is_safe_integer pageSize) then None
  else if pageSize =? 0 then
    if 0 <? total then None else Some []
  else
    let totalPages := ceil_div total pageSize in
    if totalPages <=? 1 then Some []
    else if max_buttons <? totalPages then None
    else Some ((λ i, (i, i =? page)) <$> seqZ 1 totalPages).

(** [s.padStart(2, '0')] *)
Definition padStart2 (s : string) : string :=
  match String.length s with
  | O => "00"
  | S O => "0" +:+ s
  | _ => s
  end.

(** formatDuration on a safe integer number of seconds: there the
    division by 60 in doubles floors to the exact quotient, the
    remainder is exact and both numbers print in full.  Other numbers
    (fractions, larger magnitudes, where doubles round and the printed
    digits are cut) are outside the model, [None]. *)
Definition formatDuration (seconds : Z) : option string :=
  if is_safe_integer seconds then
    let mins := seconds / 60 in
    let secs := Z.rem seconds 60 in
    Some (pretty mins +:+ ":" +:+ padStart2 (pretty secs))
  else None.

(** formatDate, from the age of the date in milliseconds ([None] when
    the date does not parse and the difference is NaN) and from what
    [toLocaleDateString] prints for it. *)
Definition formatDate (diff : option Z) (locale : string) : string :=
  match diff with
  | None => locale
  | Some d =>
      if d <? 60000 then "Vừa xong"
      else if d <? 3600000 then pretty (d / 60000) +:+ " phút trước"
      else if d <? 86400000 then pretty (d / 3600000) +:+ " giờ trước"
      else if d <? 604800000 then pretty (d / 86400000) +:+ " ngày trước"
      else locale
  end.

(** How the text of a node is written out by [innerHTML]. *)
Definition escape_unit (c : N) : ustring :=
  if (c =? 38)%N then [38; 97; 109; 112; 59]%N
  else if (c =? 160)%N then [38; 110; 98; 115; 112; 59]%N
  else if (c =? 60)%N then [38; 108; 116; 59]%N
  else if (c =? 62)%N then [38; 103; 116; 59]%N
  else [c].

(** escapeHtml: nothing for a missing or empty text, else the text set
    as [textContent] and read back as [innerHTML]. *)
Definition escapeHtml (text : option ustring) : ustring :=
  match text with
  | None => []
  | Some l => l ≫= escape_unit
  end.

End Helpers.

(** ** Language switch (i18n module) *)

Module I18n.
Import Session.

Definition DEFAULT_LANG : string := "vi".

(** The language state of a page: the variable, the stored
    preference, which languages the loaded translations have (if they
    are loaded), the [lang] attribute of the document and the number
    of click handlers on the toggle. *)
Record state : Type := mkState {
  currentLang : string;
  stored : option string;
  translations : option (string → bool);
  html_lang : option string;
  toggle_handlers : nat;
  i18n_console : list string
}.

(** A page that has just loaded the script, over a given storage. *)
Definition fresh (storage : option string) : state :=
  mkState DEFAULT_LANG storage None None 0 [].

Definition applyTranslations (st : state) : state :=
  match translations st with
  | None => st
  | Some has =>
      if has (currentLang st) then
        mkState (currentLang st) (stored st) (translations st)
                (Some (currentLang st)) (toggle_handlers st) (i18n_console st)
      else st
  end.

Definition set_language (lang : string) (st : state) : state :=
  applyTranslations
    (mkState lang (Some lang) (translations st) (html_lang st)
             (toggle_handlers st) (i18n_console st)).

(** One click handler of the toggle. *)
Definition toggle (st : state) : state :=
  set_language (if String.eqb (currentLang st) "en" then "vi" else "en") st.

(** A click runs every handler that was installed. *)
Definition click (st : state) : state :=
  Nat.iter (toggle_handlers st) toggle st.

Definition setLang (lang : string) (st : state) : state :=
  if negb (String.eqb lang "en") && negb (String.eqb lang "vi") then st
  else set_language lang st.

Definition getLang (st : state) : string := currentLang st.

(** init: [loaded] is what fetching the translations gives ([None]
    when it fails), [has_toggle] whether the page has the button. *)
Definition init (loaded : option (string → bool)) (has_toggle : bool)
    (st : state) : state :=
  let lang :=
    str_or (match stored st with Some v => Str v | None => Null end)
           DEFAULT_LANG in
  match loaded with
  | None =>
      mkState lang (stored st) (translations st) (html_lang st)
              (toggle_handlers st)
              (i18n_console st ++ ["[i18n] Failed to load translations:"])
  | Some has =>
      let st1 := applyTranslations
                   (mkState lang (stored st) (Some has) (html_lang st)
                            (toggle_handlers st) (i18n_console st)) in
      if has_toggle then
        mkState (currentLang st1) (stored st1) (translations st1)
                (html_lang st1) (S (toggle_handlers st1)) (i18n_console st1)
      else st1
  end.

Inductive user_op : Type :=
| Click
| SetLang (lang : string).

Definition apply_op (st : state) (op : user_op) : state :=
  match op with
  | Click => click st
  | SetLang lang => setLang lang st
  end.

(** Loading the page again over what is stored now. *)
Definition reload (loaded : option (string → bool)) (has_toggle : bool)
    (st : state) : state :=
  init loaded has_toggle (fresh (stored st)).

(** The language shown is the one a reload would pick. *)
Definition lang_persisted (st : state) : Prop :=
  currentLang st
  = str_or (match stored st with Some v => Str v | None => Null end)
           DEFAULT_LANG.

End I18n.

(** ** Sequences of user actions on the community page *)

Module Actions.
Import Session.

Inductive action : Type :=
| Login (email password : string)
| Logout
| Refresh
| CheckAuth
| Download (midiId : N)
| Rate (midiId : N) (stars : Z)
| Comment (midiId : N) (input : ustring).

(** The request handleLogin sends. *)
Definition login_request (email password : string) : request :=
  mkRequest "POST" (API_BASE +:+ "/auth/login") json_headers
            (Some (BodyLogin email password)).

Section Run.

Variable env : list request → fetch_result.
Variable user_initial : bool.

Definition perform (w : world) (a : action) : world :=
  match a with
  | Login email password => (handleLogin env user_initial email password w).2
  | Logout => (logout user_initial w).2
  | Refresh => (refreshAccessToken env w).2
  | CheckAuth => (checkAuth env user_initial w).2
  | Download midiId => (downloadMidi env midiId w).2
  | Rate midiId stars => (rateMidi env midiId stars w).2
  | Comment midiId input => (addComment env midiId input w).2
  end.

Definition run (w : world) (l : list action) : world :=
  foldl perform w l.

End Run.

(** A token variable and its entry in [localStorage] agree: the entry
    holds the string form of the variable, or both are empty. *)
Definition stored_as (t : jsstr) (entry : option string) : Prop :=
  entry = Some (to_string t) ∨ (t = Null ∧ entry = None).

Definition tokens_stored (s : session) : Prop :=
  stored_as (accessToken s) (localStorage s !! "access_token")
  ∧ stored_as (refreshToken s) (localStorage s !! "refresh_token").

(** The session a reload of the page starts from. *)
Definition reload (s : session) : session :=
  initial_session (localStorage s).

End Actions.

(** ** More sample data *)

Module MoreSamples.
Import Session.

Definition webhook : Proxy.in_request :=
  Proxy.mkIn "POST"
    (<["authorization" := "Apikey k1"]> (<["host" := "hook.example.org"]> ∅))
    (inr "{}").

Definition probe : Proxy.in_request :=
  Proxy.mkIn "GET" ∅ (inr "").

Definition tunnel_config : Proxy.config :=
  Proxy.mkConfig Undefined (Str "https://tunnel.example.org") Undefined
                 Undefined Undefined ["cloudflare_url"].

Definition npoint_ok : Proxy.npoint_result :=
  Proxy.NpointResponse true 200 (inr tunnel_config).

Definition backend_ok (r : Proxy.out_request) : Proxy.backend_result :=
  Proxy.BackendResponse 200 (inr "done").

Definition refusal (status : Z) : string := "RangeError".

(** A world in which alice's access token has expired: the server
    refuses every token but still rotates the refresh token "r1". *)
Definition strict_server (log : list request) : fetch_result :=
  match last log with
  | None => NetworkError
  | Some r =>
      if String.eqb (req_url r) "/api/auth/refresh" then
        match req_body r with
        | Some (BodyRefresh (Str "r1")) => Response true (Some Samples.rotated_body)
        | _ => Response false (Some Samples.denied_body)
        end
      else Response false (Some Samples.denied_body)
  end.

(** A server that refuses everything. *)
Definition offline_refresh (log : list request) : fetch_result :=
  Response false (Some Samples.denied_body).

Definition busy_day : list Actions.action :=
  [Actions.Download 7; Actions.Rate 7 4; Actions.CheckAuth; Actions.Refresh;
   Actions.Comment 7 Samples.hello].

Definition always_plays (url : string) : bool := true.

Definition listening : list Player.player_op :=
  [Player.DoPlay 7 "Song"; Player.DoPlay 8 "Tune"; Player.DoToggle;
   Player.DoToggle; Player.DoEnded; Player.DoPlay 8 "Tune"].

Definition paused : Player.player :=
  Player.player_run true always_plays Player.initial_player
    [Player.DoPlay 7 "Song"; Player.DoStop].

(** A user record without a name, and a server that accepts it. *)
Definition nameless : user := mkUser "" (Str "newcomer") 5.

Definition nameless_body : body :=
  mkBody (Str "a9") (Str "r9") (Some nameless) Undefined Undefined Undefined.

Definition nameless_server (log : list request) : fetch_result :=
  Response true (Some nameless_body).

Definition has_both (lang : string) : bool :=
  String.eqb lang "en" || String.eqb lang "vi".

Definition english_page : I18n.state :=
  I18n.init (Some has_both) true (I18n.fresh (Some "en")).

End MoreSamples.

(** * Properties *)

(** ** Pricing *)

Section PricingFacts.
Import Js Pricing.

Lemma baseCosts_lookup (t : tier) :
  baseCosts !! tier_name t = Some (base_cost t).
Proof. destruct t; reflexivity. Qed.

Lemma discounts_lookup (r : rank) :
  discounts !! rank_name r = Some (rank_discount r).
Proof. destruct r; reflexivity. Qed.

Lemma baseCosts_unknown (k : string) :
  k ≠ "normal" → k ≠ "premium" → k ≠ "exclusive" → baseCosts !! k = None.
Proof.
  intros H1 H2 H3. unfold baseCosts.
  rewrite !lookup_insert_ne by congruence. apply lookup_empty.
Qed.

Lemma discounts_unknown (k : string) :
  (∀ r, k ≠ rank_name r) → discounts !! k = None.
Proof.
  intros H. unfold discounts.
  pose proof (H Newcomer). pose proof (H Player). pose proof (H Contributor).
  pose proof (H Artist). pose proof (H Star). pose proof (H Legend).
  simpl in *.
  rewrite !lookup_insert_ne by congruence. apply lookup_empty.
Qed.

Lemma get_own (own : gmap string Z) (k : string) (n : Z) :
  own !! k = Some n → get own k = VNum n.
Proof. intros H. unfold get. by rewrite H. Qed.

Lemma get_missing (own : gmap string Z) (k : string) :
  own !! k = None → inherited k = false → get own k = VUndefined.
Proof.
  unfold get, inherited. intros -> H.
  destruct (assoc k object_prototype); [discriminate | reflexivity].
Qed.

(** On the six ranks and three tiers the code computes the table. *)
Lemma getDownloadCost_price (t : tier) (r : rank) :
  getDownloadCost (rank_name r) (tier_name t) = VNum (price t r).
Proof.
  unfold getDownloadCost.
  rewrite (get_own _ _ _ (baseCosts_lookup t)).
  rewrite (get_own _ _ _ (discounts_lookup r)).
  destruct t, r; reflexivity.
Qed.

(** Defaults: a key that is neither an own property of the table nor a
    property of [Object.prototype] reads as [undefined], so [||] picks
    the default. *)
Lemma getDownloadCost_default_type (rank ty : string) :
  baseCosts !! ty = None → inherited ty = false →
  getDownloadCost rank ty = getDownloadCost rank "normal".
Proof.
  intros Hown Hinh. unfold getDownloadCost.
  by rewrite (get_missing _ _ Hown Hinh).
Qed.

Lemma getDownloadCost_default_rank (rank ty : string) :
  discounts !! rank = None → inherited rank = false →
  getDownloadCost rank ty = getDownloadCost "newcomer" ty.
Proof.
  intros Hown Hinh. unfold getDownloadCost.
  by rewrite (get_missing _ _ Hown Hinh).
Qed.

(** Away from the inherited property names the result is a
    non-negative integer. *)
Lemma getDownloadCost_nonneg (rank ty : string) :
  inherited rank = false → inherited ty = false →
  ∃ n, getDownloadCost rank ty = VNum n ∧ 0 ≤ n.
Proof.
  intros Hr Ht. unfold getDownloadCost.
  assert (Hb : ∃ b, or_else (get baseCosts ty) (VNum 3) = VNum b).
  { destruct (baseCosts !! ty) as [b|] eqn:E.
    - rewrite (get_own _ _ _ E). unfold or_else. simpl.
      destruct (negb (b =? 0)); eauto.
    - rewrite (get_missing _ _ E Ht). eauto. }
  assert (Hd : ∃ d, or_else (get discounts rank) (VNum 0) = VNum d).
  { destruct (discounts !! rank) as [d|] eqn:E.
    - rewrite (get_own _ _ _ E). unfold or_else. simpl.
      destruct (negb (d =? 0)); eauto.
    - rewrite (get_missing _ _ E Hr). eauto. }
  destruct Hb as [b ->], Hd as [d ->]. simpl.
  eexists. split; [reflexivity | lia].
Qed.

Lemma object_prototype_values (k : string) (v : value) :
  assoc k object_prototype = Some v →
  truthy v = true ∧ to_number v = VNaN.
Proof.
  unfold object_prototype. simpl.
  repeat (destruct (String.eqb k _);
          [intros [= <-]; split; reflexivity |]).
  discriminate.
Qed.

(** An inherited name defeats the fallback, whatever the other
    argument is. *)
Lemma getDownloadCost_inherited_type (rank ty : string) :
  baseCosts !! ty = None → inherited ty = true →
  getDownloadCost rank ty = VNaN.
Proof.
  unfold getDownloadCost, get, inherited. intros ->.
  destruct (assoc ty object_prototype) as [v|] eqn:E; [| discriminate].
  intros _. destruct (object_prototype_values _ _ E) as [Ht Hn].
  unfold or_else at 1. rewrite Ht. unfold sub. by rewrite Hn.
Qed.

(** C1: for every tier among normal, premium, exclusive and every rank
    among the six known ranks, getDownloadCost returns
    max(0, base(tier) - discount(rank)) with base normal=3, premium=8,
    exclusive=15 and discount newcomer=0, player=1, contributor=1,
    artist=2, star=3, legend=99; in particular price(exclusive,
    newcomer) = 15, price(exclusive, legend) = 0 and price(normal,
    player) = 2. *)
Theorem getDownloadCost_table :
  (∀ (t : tier) (r : rank),
     getDownloadCost (rank_name r) (tier_name t)
     = VNum (Z.max 0 (base_cost t - rank_discount r)))
  ∧ base_cost Normal = 3 ∧ base_cost Premium = 8 ∧ base_cost Exclusive = 15
  ∧ rank_discount Newcomer = 0 ∧ rank_discount Player = 1
  ∧ rank_discount Contributor = 1 ∧ rank_discount Artist = 2
  ∧ rank_discount Star = 3 ∧ rank_discount Legend = 99
  ∧ getDownloadCost "newcomer" "exclusive" = VNum 15
  ∧ getDownloadCost "legend" "exclusive" = VNum 0
  ∧ getDownloadCost "player" "normal" = VNum 2.
Proof.
  split.
  - intros t r. apply getDownloadCost_price.
  - repeat split; reflexivity.
Qed.

(** C5: for every tier among normal, premium, exclusive the price for
    rank legend is exactly 0: the legend discount, 99, exceeds every
    base cost, and after the clamp at 0 getDownloadCost('legend', tier)
    is 0. *)
Theorem getDownloadCost_legend_free (t : tier) :
  ∃ b d : Z,
    baseCosts !! tier_name t = Some b
    ∧ discounts !! "legend" = Some d
    ∧ d = 99 ∧ b < d
    ∧ sub (VNum b) (VNum d) = VNum (b - d) ∧ b - d < 0
    ∧ getDownloadCost "legend" (tier_name t) = VNum 0.
Proof.
  exists (base_cost t), 99.
  rewrite baseCosts_lookup.
  destruct t; simpl; repeat split; reflexivity || lia.
Qed.

(** C9, as the code behaves: the fallback of getDownloadCost covers the
    keys that read as undefined but not the names every object
    inherits; for the type "constructor" (or the rank "toString") the
    lookup yields a function, [||] keeps it, and the result is NaN
    instead of a non-negative integer. *)
Theorem getDownloadCost_inherited_key_NaN :
  get baseCosts "constructor" = VFunction "Object"
  ∧ getDownloadCost "newcomer" "constructor" = VNaN
  ∧ getDownloadCost "toString" "normal" = VNaN
  ∧ getDownloadCost "newcomer" "midi" = VNum 3
  ∧ getDownloadCost "guest" "exclusive" = VNum 15.
Proof. repeat split; reflexivity. Qed.

End PricingFacts.

(** ** Session handlers *)

Section SessionFacts.
Import Session.

Variable env : list request → fetch_result.

Lemma refreshAccessToken_unfold (w : world) :
  present (refreshToken (sess w)) = true →
  refreshAccessToken env w =
    let e := log_request (refresh_request (sess w)) (eff w) in
    match env (requests e) with
    | Response true (Some data) =>
        (true,
         mkWorld
           (mkSession (currentUser (sess w)) (access_token data)
              (refresh_token data)
              (<["refresh_token" := to_string (refresh_token data)]>
                 (<["access_token" := to_string (access_token data)]>
                    (localStorage (sess w)))))
           e)
    | Response true None | NetworkError =>
        (false,
         mkWorld (sess w)
           (mkEffects (requests e) (toasts e) (modals e) (page e)
              (console e ++ ["Token refresh failed:"])
              (saved_files e) (spawned e)))
    | Response false _ => (false, mkWorld (sess w) e)
    end.
Proof.
  intros Hp. unfold refreshAccessToken, bind, get_session. rewrite Hp. simpl.
  destruct (env _) as [|[] [data|]]; reflexivity.
Qed.

Lemma refreshAccessToken_absent (w : world) :
  present (refreshToken (sess w)) = false →
  refreshAccessToken env w = (false, w).
Proof.
  intros Hp. unfold refreshAccessToken, bind, get_session. by rewrite Hp.
Qed.

(** C4, as amended: for every call of refreshAccessToken: if the
    server responds with success and a body that decodes, the tokens
    held in the module variables and in localStorage are replaced by
    the access_token and refresh_token of that body and the call
    returns true; the presented refresh token is then no longer stored
    provided the issued one differs from it.  If no refresh token is
    stored, or the server responds with failure, or the request or the
    decoding of its body fails, the call returns false and the stored
    tokens are unchanged. *)
Theorem refreshAccessToken_contract (w : world) :
  (∀ data,
     present (refreshToken (sess w)) = true →
     env (requests (eff w) ++ [refresh_request (sess w)])
       = Response true (Some data) →
     ∃ w', refreshAccessToken env w = (true, w')
       ∧ accessToken (sess w') = access_token data
       ∧ refreshToken (sess w') = refresh_token data
       ∧ localStorage (sess w') !! "access_token"
         = Some (to_string (access_token data))
       ∧ localStorage (sess w') !! "refresh_token"
         = Some (to_string (refresh_token data))
       ∧ (to_string (refresh_token data) ≠ to_string (refreshToken (sess w)) →
          refreshToken (sess w') ≠ refreshToken (sess w)
          ∧ localStorage (sess w') !! "refresh_token"
            ≠ Some (to_string (refreshToken (sess w)))))
  ∧ (present (refreshToken (sess w)) = false →
     refreshAccessToken env w = (false, w))
  ∧ (∀ r,
       present (refreshToken (sess w)) = true →
       env (requests (eff w) ++ [refresh_request (sess w)]) = r →
       (r = NetworkError ∨ r = Response true None ∨ ∃ j, r = Response false j) →
       ∃ w', refreshAccessToken env w = (false, w') ∧ sess w' = sess w).
Proof.
  split; [| split].
  - intros data Hp Henv.
    rewrite (refreshAccessToken_unfold w Hp). simpl. rewrite Henv.
    eexists. split; [reflexivity |]. simpl.
    repeat split.
    + rewrite lookup_insert_ne by discriminate. apply lookup_insert_eq.
    + apply lookup_insert_eq.
    + intros E. apply H. by rewrite E.
    + rewrite lookup_insert_eq. intros E. apply H. congruence.
  - apply refreshAccessToken_absent.
  - intros r Hp Henv Hr.
    rewrite (refreshAccessToken_unfold w Hp). simpl. rewrite Henv.
    destruct Hr as [-> | [-> | [j ->]]]; eexists; split; reflexivity.
Qed.

Lemma auth_request_bearer (s : session) (url : string) (o : options) :
  present (accessToken s) = true →
  req_headers (auth_request s url o) !! "Authorization"
  = Some ("Bearer " +:+ to_string (accessToken s)).
Proof.
  intros Hp. unfold auth_request. rewrite Hp. simpl. apply lookup_insert_eq.
Qed.

Lemma auth_request_anonymous (s : session) (url : string) (o : options) :
  present (accessToken s) = false →
  opt_headers o !! "Authorization" = None →
  req_headers (auth_request s url o) !! "Authorization" = None.
Proof.
  intros Hp Ho. unfold auth_request. rewrite Hp. simpl.
  apply lookup_union_None. split; [exact Ho | reflexivity].
Qed.

(** downloadMidi never writes the session itself. *)
Lemma downloadMidi_session (midiId : N) (w : world) :
  sess (downloadMidi env midiId w).2 = sess w.
Proof.
  unfold downloadMidi, bind, get_session, fetchWithAuth, fetch, bind. simpl.
  destruct (currentUser (sess w)); [| reflexivity]. simpl.
  destruct (env _) as [|[] [data|]]; simpl; try reflexivity.
  destruct (env _) as [|[] ?]; reflexivity.
Qed.

(** C6, as amended: for every invocation of downloadMidi, if no user is
    logged in (currentUser is null) no request is issued and neither
    the session nor the downloads change (the branch only shows a toast
    and the login modal and returns); if a user is logged in and an
    access token is held, the download request, and the file request
    that may follow it, are sent with that token as Bearer
    authorization. *)
Theorem downloadMidi_bearer (midiId : N) (w : world) :
  (currentUser (sess w) = None →
     requests (eff (downloadMidi env midiId w).2) = requests (eff w)
     ∧ sess (downloadMidi env midiId w).2 = sess w
     ∧ saved_files (eff (downloadMidi env midiId w).2) = saved_files (eff w)
     ∧ spawned (eff (downloadMidi env midiId w).2) = spawned (eff w))
  ∧ (∀ u,
       currentUser (sess w) = Some u →
       present (accessToken (sess w)) = true →
       ∃ (rq : request) (rest : list request),
         requests (eff (downloadMidi env midiId w).2)
           = (requests (eff w) ++ rq :: rest)%list
         ∧ req_method rq = "POST"
         ∧ req_url rq = "/api/community/midi/" +:+ pretty midiId +:+ "/download"
         ∧ Forall (λ r, req_headers r !! "Authorization"
                        = Some ("Bearer " +:+ to_string (accessToken (sess w))))
                  (rq :: rest)).
Proof.
  split.
  - intros Hu.
    unfold downloadMidi, bind, get_session. rewrite Hu. simpl. auto.
  - intros u Hu Hp.
    unfold downloadMidi, bind, get_session, fetchWithAuth, fetch, bind.
    rewrite Hu. simpl.
    pose proof (auth_request_bearer (sess w)) as Hb.
    destruct (env _) as [|[] [data|]]; simpl.
    2: destruct (env _) as [|[] ?]; simpl; rewrite <- app_assoc; simpl.
    all: do 2 eexists; split; [reflexivity |].
    all: split; [reflexivity |]; split; [reflexivity |].
    all: repeat constructor; apply Hb; exact Hp.
Qed.

End SessionFacts.

Section SessionExamples.
Import Session Samples.

(** C6, the claim as stated fails: alice logs in; a checkAuth (one is
    started when the page loads and after every download or comment)
    sends its request and waits; she logs out; the response arrives
    and sets currentUser again although no token is held any more; the
    next downloadMidi finds a user and sends its request without an
    Authorization header. *)
Lemma downloadMidi_logged_in_without_bearer :
  currentUser (sess raced_world) = Some alice
  ∧ accessToken (sess raced_world) = Null
  ∧ ∃ rq : request,
      requests (eff (downloadMidi server 7 raced_world).2)
        = (requests (eff raced_world) ++ [rq])%list
      ∧ req_method rq = "POST"
      ∧ req_url rq = "/api/community/midi/7/download"
      ∧ req_headers rq !! "Authorization" = None.
Proof.
  split; [reflexivity |]. split; [reflexivity |].
  eexists. split; [vm_compute; reflexivity |].
  repeat split; reflexivity.
Qed.

(** C4, the claim as stated fails: the client stores whatever a
    successful answer carries.  When the server hands the presented
    refresh token back, the call returns true and that token is still
    held in the variable and in localStorage; and a success whose body
    does not decode makes the call return false. *)
Lemma refreshAccessToken_echo_keeps_token :
  refreshToken (sess logged_in_world) = Str "r1"
  ∧ echo_server (requests (eff logged_in_world)
                 ++ [refresh_request (sess logged_in_world)])
    = Response true (Some echo_body)
  ∧ (∃ w', refreshAccessToken echo_server logged_in_world = (true, w')
           ∧ refreshToken (sess w') = Str "r1"
           ∧ localStorage (sess w') !! "refresh_token" = Some "r1")
  ∧ garbled_server (requests (eff logged_in_world)
                    ++ [refresh_request (sess logged_in_world)])
    = Response true None
  ∧ (refreshAccessToken garbled_server logged_in_world).1 = false.
Proof.
  split; [reflexivity |]. split; [reflexivity |]. split.
  - eexists. split; [vm_compute; reflexivity |].
    split; [reflexivity | vm_compute; reflexivity].
  - split; reflexivity.
Qed.

End SessionExamples.

(** ** Ledger and entitlement gate *)

Section LedgerFacts.
Import Backend.

Lemma set_account_nonneg (uid : user_id) (a : account) (st : store) :
  balances_nonneg st → 0 ≤ balance a →
  balances_nonneg (set_account uid a st).
Proof.
  intros Hst Ha uid' a'. unfold set_account. simpl.
  rewrite lookup_insert. case_decide.
  - intros [= <-]. exact Ha.
  - apply Hst.
Qed.

Lemma register_nonneg (uid : user_id) (st st' : store) :
  balances_nonneg st → register uid st = Ok st' → balances_nonneg st'.
Proof.
  unfold register. intros Hst.
  destruct (users st !! uid); [discriminate |].
  intros [= <-]. apply set_account_nonneg; [exact Hst | simpl].
  unfold signup_bonus. lia.
Qed.

Lemma credit_nonneg (uid : user_id) (amount : Z) (reason : string)
    (st st' : store) :
  balances_nonneg st → credit uid amount reason st = Ok st' →
  balances_nonneg st'.
Proof.
  unfold credit. intros Hst.
  destruct (Z.leb_spec amount 0); [discriminate |].
  destruct (users st !! uid) as [a|] eqn:Ha; [| discriminate].
  intros [= <-]. apply set_account_nonneg; [exact Hst | simpl].
  specialize (Hst _ _ Ha). lia.
Qed.

Lemma debit_nonneg (uid : user_id) (amount : Z) (reason : string)
    (st st' : store) :
  balances_nonneg st → debit uid amount reason st = Ok st' →
  balances_nonneg st'.
Proof.
  unfold debit. intros Hst.
  destruct (users st !! uid) as [a|] eqn:Ha; [| discriminate].
  destruct (Z.ltb_spec (balance a) amount); [discriminate |].
  intros [= <-]. apply set_account_nonneg; [exact Hst | simpl]. lia.
Qed.

Lemma debit_insufficient (uid : user_id) (a : account) (amount : Z)
    (reason : string) (st : store) :
  users st !! uid = Some a → balance a < amount →
  debit uid amount reason st = Err InsufficientPoints.
Proof.
  intros Ha Hlt. unfold debit. rewrite Ha.
  destruct (Z.ltb_spec (balance a) amount); [reflexivity | lia].
Qed.

Lemma requestDownload_nonneg (uid : user_id) (iid : item_id) (now b : Z)
    (st st' : store) :
  balances_nonneg st → requestDownload uid iid now st = Ok (b, st') →
  balances_nonneg st'.
Proof.
  unfold requestDownload. intros Hst.
  destruct (items st !! iid) as [it|]; [| discriminate].
  destruct (users st !! uid) as [a|]; [| discriminate].
  destruct (Pricing.price (item_tier it) (acc_rank a) =? 0).
  - intros [= _ <-]. exact Hst.
  - destruct (debit uid _ _ st) as [st1|e] eqn:Hd; [| discriminate].
    intros [= _ <-]. exact (debit_nonneg _ _ _ _ _ Hst Hd).
Qed.

Lemma requestDownload_insufficient (uid : user_id) (iid : item_id) (now : Z)
    (a : account) (it : item) (st : store) :
  users st !! uid = Some a → items st !! iid = Some it →
  balance a < Pricing.price (item_tier it) (acc_rank a) →
  0 ≤ balance a →
  requestDownload uid iid now st = Err InsufficientPoints.
Proof.
  intros Ha Hit Hlt Hnn. unfold requestDownload. rewrite Hit, Ha.
  destruct (Z.eqb_spec (Pricing.price (item_tier it) (acc_rank a)) 0);
    [lia |].
  by rewrite (debit_insufficient _ _ _ _ _ Ha Hlt).
Qed.

Lemma comment_nonneg (uid : user_id) (iid : item_id)
    (content : Session.ustring) (now : Z) (st st' : store) :
  balances_nonneg st → comment uid iid content now st = Ok st' →
  balances_nonneg st'.
Proof.
  unfold comment. intros Hst.
  destruct (Session.trim content); [discriminate |].
  destruct (_ <? _)%nat; [discriminate |].
  destruct (credit uid _ _ st) as [st1|e] eqn:Hc; [| discriminate].
  intros [= <-]. exact (credit_nonneg _ _ _ _ _ Hst Hc).
Qed.

Lemma ledger_step_nonneg (st : store) (op : ledger_op) :
  balances_nonneg st → balances_nonneg (ledger_step st op).
Proof.
  intros Hst. unfold ledger_step.
  destruct (ledger_exec op st) as [st'|e] eqn:Hx; [| exact Hst].
  destruct op; simpl in Hx.
  - eauto using register_nonneg.
  - eauto using credit_nonneg.
  - eauto using debit_nonneg.
  - destruct (requestDownload uid iid now st) as [[b st1]|] eqn:Hr;
      [| discriminate].
    injection Hx as <-. eauto using requestDownload_nonneg.
  - eauto using comment_nonneg.
Qed.

Lemma ledger_run_nonneg (ops : list ledger_op) (st : store) :
  balances_nonneg st → balances_nonneg (ledger_run st ops).
Proof.
  revert st. induction ops as [|op ops IH]; intros st Hst; [exact Hst |].
  simpl. apply IH. by apply ledger_step_nonneg.
Qed.

Lemma empty_store_nonneg : balances_nonneg empty_store.
Proof. intros uid a. unfold empty_store. simpl. by rewrite lookup_empty. Qed.

Lemma catalog_nonneg : balances_nonneg Samples.catalog.
Proof. intros uid a. unfold Samples.catalog. simpl. by rewrite lookup_empty. Qed.

(** The end-to-end scenario: the signup bonus of 5 pays the normal
    item, and the premium item is then refused with the balance left
    at 2. *)
Example scenario_balances :
  balance_of 1 (ledger_run Samples.catalog (take 1 Samples.scenario)) = Some 5
  ∧ balance_of 1 (ledger_run Samples.catalog (take 2 Samples.scenario)) = Some 2
  ∧ ledger_exec (OpDownload 1 11 101)
      (ledger_run Samples.catalog (take 2 Samples.scenario))
    = Err InsufficientPoints
  ∧ balance_of 1 (ledger_run Samples.catalog Samples.scenario) = Some 2.
Proof. repeat split; vm_compute; reflexivity. Qed.

(** C2: for every sequence of ledger operations (credits, debits and
    the operations built on them) the balance of every user stays
    non-negative, and a debit whose amount exceeds the current balance
    fails with InsufficientPoints and leaves the whole store as it was:
    nothing is debited, no download counter is incremented and no
    record is appended; the same holds for a download whose price
    exceeds the balance. *)
Theorem ledger_balance_never_negative (st : store) (ops : list ledger_op) :
  balances_nonneg st →
  balances_nonneg (ledger_run st ops)
  ∧ (∀ uid a amount reason,
       users (ledger_run st ops) !! uid = Some a →
       balance a < amount →
       debit uid amount reason (ledger_run st ops) = Err InsufficientPoints
       ∧ ledger_step (ledger_run st ops) (OpDebit uid amount reason)
         = ledger_run st ops)
  ∧ (∀ uid iid now a it,
       users (ledger_run st ops) !! uid = Some a →
       items (ledger_run st ops) !! iid = Some it →
       balance a < Pricing.price (item_tier it) (acc_rank a) →
       requestDownload uid iid now (ledger_run st ops) = Err InsufficientPoints
       ∧ ledger_step (ledger_run st ops) (OpDownload uid iid now)
         = ledger_run st ops).
Proof.
  intros Hst. pose proof (ledger_run_nonneg ops st Hst) as Hrun.
  split; [exact Hrun |]. split.
  - intros uid a amount reason Ha Hlt.
    pose proof (debit_insufficient _ _ _ reason _ Ha Hlt) as Hd.
    split; [exact Hd |]. unfold ledger_step. simpl. by rewrite Hd.
  - intros uid iid now a it Ha Hit Hlt.
    pose proof (requestDownload_insufficient _ _ now _ _ _ Ha Hit Hlt
                  (Hrun _ _ Ha)) as Hd.
    split; [exact Hd |]. unfold ledger_step. simpl. by rewrite Hd.
Qed.

End LedgerFacts.

(** ** Token service *)

Section TokenFacts.
Import Backend Tokens.

Lemma spent_refresh_fails (t : refresh_id) (now : Z) (tb : table) :
  spent t tb → refresh t now tb = Err Unauthorized.
Proof.
  intros (e & He & Hs). unfold refresh. rewrite He.
  destruct (rt_status e); [congruence | reflexivity | reflexivity].
Qed.

Lemma spent_issue (t : refresh_id) (uid : user_id) (now : Z) (tb : table) :
  spent t tb → spent t (issue uid now tb).2.
Proof.
  intros (e & He & Hs). exists e. split; [| exact Hs].
  simpl. by apply lookup_app_l_Some.
Qed.

Lemma spent_revoke (t : refresh_id) (uid : user_id) (tb : table) :
  spent t tb → spent t (revoke uid tb).
Proof.
  intros (e & He & Hs). exists (revoke_entry uid e). split.
  - unfold revoke. by rewrite list_lookup_fmap, He.
  - unfold revoke_entry. destruct (rt_status e) eqn:E; congruence.
Qed.

(** A successful refresh leaves the presented token rotated. *)
Lemma refresh_rotates (t : refresh_id) (now : Z) (tb tb' : table)
    (p : access * refresh_id) :
  refresh t now tb = Ok (p, tb') →
  ∃ e, tb !! t = Some e ∧ rt_status e = Active ∧ now < rt_expiry e
       ∧ tb' !! t = Some (mkRefresh (rt_owner e) Rotated (rt_expiry e))
       ∧ p.2 = length tb
       ∧ tb' !! p.2 = Some (mkRefresh (rt_owner e) Active (now + refresh_ttl)).
Proof.
  unfold refresh. destruct (tb !! t) as [e|] eqn:He; [| discriminate].
  destruct (rt_status e) eqn:Hs; try discriminate.
  destruct (Z.ltb_spec now (rt_expiry e)); [| discriminate].
  intros [= <- <-]. exists e. simpl. rewrite length_insert.
  repeat split; auto.
  - apply lookup_app_l_Some. apply list_lookup_insert_eq.
    by eapply lookup_lt_Some.
  - rewrite lookup_app_r by (rewrite length_insert; lia).
    rewrite length_insert, Nat.sub_diag. reflexivity.
Qed.

Lemma spent_refresh (t t' : refresh_id) (now : Z) (tb tb' : table)
    (p : access * refresh_id) :
  spent t tb → refresh t' now tb = Ok (p, tb') → spent t tb'.
Proof.
  intros Hsp Hr. destruct (decide (t' = t)) as [-> | Hne].
  - rewrite (spent_refresh_fails _ _ _ Hsp) in Hr. discriminate.
  - destruct Hsp as (e & He & Hs).
    unfold refresh in Hr. destruct (tb !! t') as [e'|]; [| discriminate].
    destruct (rt_status e'); try discriminate.
    destruct (now <? rt_expiry e'); [| discriminate].
    injection Hr as _ <-. exists e. split; [| exact Hs].
    apply lookup_app_l_Some. by rewrite list_lookup_insert_ne.
Qed.

Lemma spent_step (t : refresh_id) (tb : table) (op : token_op) :
  spent t tb → spent t (token_step tb op).
Proof.
  intros Hsp. destruct op as [uid now | t' now | uid]; simpl.
  - by apply spent_issue.
  - destruct (refresh t' now tb) as [[p tb']|] eqn:Hr; [| exact Hsp].
    eauto using spent_refresh.
  - by apply spent_revoke.
Qed.

Lemma spent_run (t : refresh_id) (ops : list token_op) (tb : table) :
  spent t tb → spent t (token_run tb ops).
Proof.
  revert tb. induction ops as [|op ops IH]; intros tb Hsp; [exact Hsp |].
  simpl. apply IH. by apply spent_step.
Qed.

Lemma revoke_spends (t : refresh_id) (e : refresh_entry) (tb : table) :
  tb !! t = Some e → spent t (revoke (rt_owner e) tb).
Proof.
  intros He. exists (revoke_entry (rt_owner e) e). split.
  - unfold revoke. by rewrite list_lookup_fmap, He.
  - unfold revoke_entry. destruct (rt_status e) eqn:E.
    + rewrite decide_True by reflexivity. simpl. discriminate.
    + congruence.
    + congruence.
Qed.

(** One rotation: the old token is refused afterwards, the new one is
    accepted once and then refused as well. *)
Example rotation_trace :
  ∃ a1 tb1 a2 tb2,
    refresh 0 10 Samples.one_token = Ok ((a1, 1%nat), tb1)
    ∧ verifyAccess a1 11 = Ok 1%nat
    ∧ verifyAccess a1 (10 + access_ttl) = Err Unauthorized
    ∧ refresh 0 11 tb1 = Err Unauthorized
    ∧ refresh 1 12 tb1 = Ok ((a2, 2%nat), tb2)
    ∧ refresh 1 13 tb2 = Err Unauthorized.
Proof. do 4 eexists. repeat split; vm_compute; reflexivity. Qed.

(** C3: a refresh token is single-use per rotation: once a successful
    refresh has rotated it out, or a revoke has hit it, no sequence of
    token service operations brings it back; it stays in a terminal
    state and every later presentation of it fails with Unauthorized. *)
Theorem refresh_token_single_use (t : refresh_id) (tb : table)
    (ops : list token_op) (later : Z) :
  (∀ now p tb',
     refresh t now tb = Ok (p, tb') →
     spent t (token_run tb' ops)
     ∧ refresh t later (token_run tb' ops) = Err Unauthorized)
  ∧ (∀ e,
       tb !! t = Some e →
       spent t (token_run (revoke (rt_owner e) tb) ops)
       ∧ refresh t later (token_run (revoke (rt_owner e) tb) ops)
         = Err Unauthorized)
  ∧ (spent t tb →
     spent t (token_run tb ops)
     ∧ refresh t later (token_run tb ops) = Err Unauthorized).
Proof.
  assert (Hgen : ∀ tb0, spent t tb0 →
            spent t (token_run tb0 ops)
            ∧ refresh t later (token_run tb0 ops) = Err Unauthorized).
  { intros tb0 Hsp. pose proof (spent_run t ops tb0 Hsp) as H.
    split; [exact H | by apply spent_refresh_fails]. }
  split; [| split].
  - intros now p tb' Hr. apply Hgen.
    destruct (refresh_rotates _ _ _ _ _ Hr) as (e & _ & _ & _ & He' & _).
    eexists. split; [exact He' | discriminate].
  - intros e He. apply Hgen. by apply revoke_spends.
  - apply Hgen.
Qed.

End TokenFacts.

(** ** Comments and ratings *)

Section TrimFacts.
Import Session.

Lemma trim_start_head (l : ustring) :
  match trim_start l with
  | [] => True
  | c :: _ => is_whitespace c = false
  end.
Proof.
  induction l as [|c l IH]; simpl; [exact I |].
  destruct (is_whitespace c) eqn:E; [exact IH | exact E].
Qed.

Lemma trim_start_nil (l : ustring) :
  trim_start l = [] ↔ forallb is_whitespace l = true.
Proof.
  induction l as [|c l IH]; simpl; [tauto |].
  destruct (is_whitespace c); simpl; [exact IH |].
  split; discriminate.
Qed.

Lemma trim_start_fixed (l : ustring) :
  forallb is_whitespace (trim_start l) = true → trim_start l = [].
Proof.
  pose proof (trim_start_head l) as H.
  destruct (trim_start l) as [|c r]; [reflexivity |].
  simpl. rewrite H. discriminate.
Qed.

(** Empty after trimming means: nothing but white space. *)
Lemma trim_nil (l : ustring) :
  trim l = [] ↔ forallb is_whitespace l = true.
Proof.
  unfold trim. split.
  - intros H. apply trim_start_nil, trim_start_fixed.
    apply (f_equal (@rev N)) in H. rewrite rev_involutive in H. simpl in H.
    apply trim_start_nil in H.
    rewrite forallb_forall in *. intros x Hx. apply H. by apply in_rev in Hx.
  - intros H. apply trim_start_nil in H. by rewrite H.
Qed.

End TrimFacts.

Section CommentRatingFacts.
Import Session Backend.

Variable env : list request → fetch_result.

Lemma addComment_empty (midiId : N) (input : ustring) (w : world) :
  trim input = [] → addComment env midiId input w = (tt, w).
Proof. intros H. unfold addComment. by rewrite H. Qed.

Lemma addComment_sends (midiId : N) (input : ustring) (w : world) :
  trim input ≠ [] →
  requests (eff (addComment env midiId input w).2)
  = requests (eff w)
      ++ [auth_request (sess w) (midi_url midiId "/comments")
            (mkOptions (Some "POST") ∅ (Some (BodyContent (trim input))))].
Proof.
  intros H. unfold addComment.
  destruct (trim input) as [|c r]; [congruence |].
  unfold bind, fetchWithAuth, fetch, bind, get_session. simpl.
  destruct (env _) as [|[] [b|]]; reflexivity.
Qed.

(** C7: for every comment submission the content is trimmed before
    use.  If it is empty after trimming the client returns without
    sending a request and the comment operation fails with
    InvalidInput, so that no comment is created and no reward credited;
    if the trimmed content is longer than the maximum of 2000 the
    operation fails with InvalidInput as well.  What is sent and what
    is stored is the trimmed content. *)
Theorem comment_content_checked (midiId : N) (input : ustring) (w : world)
    (uid : user_id) (iid : item_id) (now : Z) (st : store) :
  (trim input = [] →
     addComment env midiId input w = (tt, w)
     ∧ comment uid iid input now st = Err InvalidInput
     ∧ ledger_step st (OpComment uid iid input now) = st)
  ∧ ((max_comment_length < length (trim input))%nat →
     comment uid iid input now st = Err InvalidInput
     ∧ ledger_step st (OpComment uid iid input now) = st)
  ∧ (trim input ≠ [] →
     ∃ rq : request,
       requests (eff (addComment env midiId input w).2)
         = (requests (eff w) ++ [rq])%list
       ∧ req_body rq = Some (BodyContent (trim input)))
  ∧ (∀ st',
       comment uid iid input now st = Ok st' →
       comments st' = (comments st ++ [mkComment iid uid (trim input) now])%list
       ∧ trim input ≠ []
       ∧ (length (trim input) ≤ max_comment_length)%nat).
Proof.
  repeat apply conj.
  - intros H. split; [by apply addComment_empty |].
    unfold ledger_step. simpl. unfold comment. by rewrite H.
  - intros H.
    assert (Hc : comment uid iid input now st = Err InvalidInput).
    { unfold comment. destruct (trim input) as [|c r]; [reflexivity |].
      destruct (Nat.ltb_spec max_comment_length (length (c :: r)));
        [reflexivity | lia]. }
    split; [exact Hc |]. unfold ledger_step. simpl. by rewrite Hc.
  - intros H. eexists. split; [by apply addComment_sends | reflexivity].
  - intros st'. unfold comment.
    destruct (trim input) as [|c r] eqn:E; [discriminate |].
    destruct (Nat.ltb_spec max_comment_length (length (c :: r)));
      [discriminate |].
    unfold credit. simpl.
    destruct (users st !! uid); [| discriminate].
    intros [= <-]. simpl. repeat split; [discriminate |].
    unfold max_comment_length in *. simpl in *. lia.
Qed.

Lemma rateMidi_sends (midiId : N) (stars : Z) (w : world) (u : user) :
  currentUser (sess w) = Some u →
  requests (eff (rateMidi env midiId stars w).2)
  = requests (eff w)
      ++ [auth_request (sess w) (midi_url midiId "/rate")
            (mkOptions (Some "POST") ∅ (Some (BodyStars stars)))].
Proof.
  intros H. unfold rateMidi, bind, get_session. rewrite H.
  unfold fetchWithAuth, fetch, bind, get_session. simpl.
  destruct (env _) as [|[] [b|]]; reflexivity.
Qed.

(** Rating the same item twice as the same user keeps one rating, the
    latest. *)
Example rating_upsert :
  ∃ st1 st2,
    rate 1 10 3 Samples.catalog = Ok ((3, 1), st1)
    ∧ rate 1 10 5 st1 = Ok ((5, 1), st2)
    ∧ ratings st2 !! (1%nat, 10%nat) = Some 5.
Proof. do 2 eexists. repeat split; vm_compute; reflexivity. Qed.

(** C8: for every rating submission rate(userId, itemId, stars): if
    stars lies outside 1..5 the operation fails with InvalidInput and
    nothing is stored; within 1..5 the rating is accepted and replaces
    whatever the pair had rated before.  The client forwards the stars
    it is given as they are; the range is checked by the operation. *)
Theorem rate_stars_range (uid : user_id) (iid : item_id) (stars : Z)
    (st : store) (midiId : N) (w : world) :
  (stars < 1 ∨ 5 < stars → rate uid iid stars st = Err InvalidInput)
  ∧ (1 ≤ stars ≤ 5 →
     ∃ agg st',
       rate uid iid stars st = Ok (agg, st')
       ∧ ratings st' = <[(uid, iid) := stars]> (ratings st)
       ∧ ratings st' !! (uid, iid) = Some stars
       ∧ (∀ k, k ≠ (uid, iid) → ratings st' !! k = ratings st !! k)
       ∧ users st' = users st ∧ items st' = items st
       ∧ downloads st' = downloads st ∧ comments st' = comments st)
  ∧ (∀ u, currentUser (sess w) = Some u →
       ∃ rq : request,
         requests (eff (rateMidi env midiId stars w).2)
           = (requests (eff w) ++ [rq])%list
         ∧ req_body rq = Some (BodyStars stars)).
Proof.
  repeat apply conj.
  - intros H. unfold rate.
    destruct (Z.leb_spec 1 stars), (Z.leb_spec stars 5); simpl;
      reflexivity || lia.
  - intros [H1 H5]. unfold rate.
    destruct (Z.leb_spec 1 stars), (Z.leb_spec stars 5); simpl; try lia.
    do 2 eexists. split; [reflexivity |]. simpl.
    repeat split.
    + apply lookup_insert_eq.
    + intros k Hk. by rewrite lookup_insert_ne.
  - intros u Hu. eexists. split; [by eapply rateMidi_sends | reflexivity].
Qed.

End CommentRatingFacts.

(** ** The price shown to a visitor *)

Section CardFacts.
Import Js Pricing Session.






End CardFacts.

(** ** The statements at the sample data *)

Section Instances.
Import Session Backend Tokens Samples.

Lemma ledger_balance_never_negative_witness :
  balances_nonneg catalog
  ∧ balances_nonneg (ledger_run catalog scenario)
  ∧ debit 1 3 "download:10" (ledger_run catalog scenario)
    = Err InsufficientPoints
  ∧ requestDownload 1 11 102 (ledger_run catalog scenario)
    = Err InsufficientPoints.
Proof.
  split; [exact catalog_nonneg |].
  destruct (ledger_balance_never_negative catalog scenario catalog_nonneg)
    as (Hnn & Hdebit & Hdownload).
  split; [exact Hnn |]. split.
  - refine (proj1 (Hdebit 1%nat (mkAccount Pricing.Newcomer 2 _) 3
                     "download:10" _ _)).
    + vm_compute. reflexivity.
    + reflexivity.
  - refine (proj1 (Hdownload 1%nat 11%nat 102
                     (mkAccount Pricing.Newcomer 2 _)
                     (mkItem Pricing.Premium 0) _ _ _)).
    + vm_compute. reflexivity.
    + vm_compute. reflexivity.
    + reflexivity.
Defined.

Lemma refresh_token_single_use_witness :
  (∃ p tb', refresh 0 10 one_token = Ok (p, tb')
            ∧ refresh 0 40 (token_run tb' token_traffic) = Err Unauthorized)
  ∧ one_token !! 0%nat = Some (mkRefresh 1 Active refresh_ttl)
  ∧ refresh 0 40 (token_run (revoke 1 one_token) token_traffic)
    = Err Unauthorized.
Proof.
  destruct (refresh_token_single_use 0 one_token token_traffic 40)
    as (Hrot & Hrev & _).
  split; [| split].
  - destruct (refresh 0 10 one_token) as [[p tb']|e] eqn:E;
      [| vm_compute in E; discriminate E].
    exists p, tb'. split; [reflexivity |].
    exact (proj2 (Hrot 10 p tb' E)).
  - reflexivity.
  - exact (proj2 (Hrev (mkRefresh 1 Active refresh_ttl) eq_refl)).
Defined.

Lemma refreshAccessToken_contract_witness :
  (present (refreshToken (sess logged_in_world)) = true
   ∧ server (requests (eff logged_in_world)
             ++ [refresh_request (sess logged_in_world)])
     = Response true (Some rotated_body)
   ∧ ∃ w', refreshAccessToken server logged_in_world = (true, w')
           ∧ accessToken (sess w') = Str "a2"
           ∧ refreshToken (sess w') = Str "r2"
           ∧ localStorage (sess w') !! "refresh_token" = Some "r2")
  ∧ (present (refreshToken (sess fresh_world)) = false
     ∧ refreshAccessToken server fresh_world = (false, fresh_world))
  ∧ (offline (requests (eff logged_in_world)
              ++ [refresh_request (sess logged_in_world)])
     = NetworkError
     ∧ ∃ w', refreshAccessToken offline logged_in_world = (false, w')
             ∧ sess w' = sess logged_in_world).
Proof.
  assert (Hp : present (refreshToken (sess logged_in_world)) = true)
    by reflexivity.
  assert (Hs : server (requests (eff logged_in_world)
                       ++ [refresh_request (sess logged_in_world)])
               = Response true (Some rotated_body))
    by (vm_compute; reflexivity).
  split; [| split].
  - split; [exact Hp |]. split; [exact Hs |].
    destruct (proj1 (refreshAccessToken_contract server logged_in_world)
                rotated_body Hp Hs)
      as (w' & Hrun & Ha & Hr & _ & Hl & _).
    exists w'. repeat split; assumption.
  - split; [reflexivity |].
    exact (proj1 (proj2 (refreshAccessToken_contract server fresh_world))
             eq_refl).
  - split; [reflexivity |].
    exact (proj2 (proj2 (refreshAccessToken_contract offline logged_in_world))
             NetworkError Hp eq_refl (or_introl eq_refl)).
Defined.

Lemma downloadMidi_bearer_witness :
  (currentUser (sess fresh_world) = None
   ∧ requests (eff (downloadMidi server 7 fresh_world).2) = [])
  ∧ (currentUser (sess logged_in_world) = Some alice
     ∧ present (accessToken (sess logged_in_world)) = true
     ∧ ∃ rq rest,
         requests (eff (downloadMidi server 7 logged_in_world).2)
           = requests (eff logged_in_world) ++ rq :: rest
         ∧ req_url rq = "/api/community/midi/7/download"
         ∧ Forall (λ r, req_headers r !! "Authorization" = Some "Bearer a1")
                  (rq :: rest)).
Proof.
  split.
  - split; [reflexivity |].
    exact (proj1 (proj1 (downloadMidi_bearer server 7 fresh_world) eq_refl)).
  - split; [reflexivity |]. split; [reflexivity |].
    destruct (proj2 (downloadMidi_bearer server 7 logged_in_world)
                alice eq_refl eq_refl)
      as (rq & rest & Hlog & _ & Hurl & Hall).
    exists rq, rest. repeat split; assumption.
Defined.

Lemma comment_content_checked_witness :
  (trim spaces = []
   ∧ addComment server 7 spaces logged_in_world = (tt, logged_in_world)
   ∧ comment 1 10 spaces 50 (ledger_run catalog scenario) = Err InvalidInput)
  ∧ ((max_comment_length < length (trim (repeat 97%N 2001)))%nat
     ∧ comment 1 10 (repeat 97%N 2001) 50 (ledger_run catalog scenario)
       = Err InvalidInput)
  ∧ (trim hello ≠ []
     ∧ ∃ rq,
         requests (eff (addComment server 7 hello logged_in_world).2)
           = requests (eff logged_in_world) ++ [rq]
         ∧ req_body rq = Some (BodyContent [104; 105]%N)).
Proof.
  split; [| split].
  - split; [reflexivity |].
    destruct (proj1 (comment_content_checked server 7 spaces logged_in_world
                       1%nat 10%nat 50 (ledger_run catalog scenario))
                eq_refl) as (Hc & Hs & _).
    split; assumption.
  - assert (Hl : (max_comment_length < length (trim (repeat 97%N 2001)))%nat)
      by (vm_compute; repeat constructor).
    split; [exact Hl |].
    exact (proj1 (proj1 (proj2
             (comment_content_checked server 7 (repeat 97%N 2001)
                logged_in_world 1%nat 10%nat 50 (ledger_run catalog scenario)))
             Hl)).
  - assert (Hn : trim hello ≠ []) by discriminate.
    split; [exact Hn |].
    exact (proj1 (proj2 (proj2
             (comment_content_checked server 7 hello logged_in_world
                1%nat 10%nat 50 (ledger_run catalog scenario)))) Hn).
Defined.

Lemma rate_stars_range_witness :
  (6 < 1 ∨ 5 < 6)
  ∧ rate 1 10 6 catalog = Err InvalidInput
  ∧ 1 ≤ 4 ≤ 5
  ∧ (∃ agg st', rate 1 10 4 catalog = Ok (agg, st')
                ∧ ratings st' !! (1%nat, 10%nat) = Some 4)
  ∧ currentUser (sess logged_in_world) = Some alice
  ∧ ∃ rq,
      requests (eff (rateMidi server 7 4 logged_in_world).2)
        = requests (eff logged_in_world) ++ [rq]
      ∧ req_body rq = Some (BodyStars 4).
Proof.
  assert (H6 : 6 < 1 ∨ 5 < 6) by (right; reflexivity).
  assert (H4 : 1 ≤ 4 ≤ 5) by (split; discriminate).
  split; [exact H6 |]. split.
  { exact (proj1 (rate_stars_range server 1 10 6 catalog 7 logged_in_world) H6). }
  split; [exact H4 |]. split.
  { destruct (proj1 (proj2
               (rate_stars_range server 1 10 4 catalog 7 logged_in_world)) H4)
      as (agg & st' & Hr & _ & Hl & _).
    exists agg, st'. split; assumption. }
  split; [reflexivity |].
  exact (proj2 (proj2 (rate_stars_range server 1 10 4 catalog 7 logged_in_world))
           alice eq_refl).
Defined.


End Instances.

(** * Further properties of the code *)

(** ** Webhook proxy *)

Section ProxyFacts.
Import Session Proxy.

Variable npoint : npoint_result.
Variable backend : out_request → backend_result.
Variable refused : Z → string.

Lemma targetUrl_of_fourt (data : config) :
  targetUrl_of data = Str (str_or (fourt_url data) "https://fourt.io.vn").
Proof.
  unfold targetUrl_of, js_or.
  destruct (fourt_url data) as [| |[|a s]]; reflexivity.
Qed.

Lemma targetUrl_of_present (data : config) :
  present (targetUrl_of data) = true.
Proof.
  rewrite targetUrl_of_fourt.
  destruct (fourt_url data) as [| |[|a s]]; reflexivity.
Qed.

(** X1: the worker goes out exactly for POST requests: a request
    with any other method is answered 405 at once, without contacting
    the configuration service or the back end and without logging, and
    every POST leads at least to the configuration lookup. *)
Theorem proxy_rejects_other_methods (req : in_request) :
  (in_method req ≠ "POST" →
     fetch npoint backend refused req
     = mkOutcome (mkResponse 405 json_header (MethodNotAllowed ["POST"])) [] [])
  ∧ (in_method req = "POST" →
     ∃ rest, sent (fetch npoint backend refused req) = config_request :: rest).
Proof.
  unfold fetch. split.
  - intros H. destruct (String.eqb_spec (in_method req) "POST"); [contradiction |].
    reflexivity.
  - intros ->. simpl.
    destruct npoint as [m|[] st [m|data]]; simpl; eauto.
    rewrite targetUrl_of_present. simpl.
    destruct (in_body req) as [m|body]; simpl; eauto.
    destruct (backend _) as [m|st' [m|text]]; simpl;
      try destruct (status_allows_body st'); simpl; eauto.
Qed.

(** X2: the forwarding target is the configured fourt_url when it is
    present and "https://fourt.io.vn" otherwise: the other URLs of the
    configuration never influence the outcome, every request sent
    besides the configuration lookup goes to that target, and the
    answer "no target URL configured" is never given. *)
Theorem proxy_target_fixed (req : in_request) (status : Z) (f c n b s c' n' b' s' : jsstr)
    (keys keys' : list string) :
  fetch (NpointResponse true status (inr (mkConfig f c n b s keys)))
        backend refused req
  = fetch (NpointResponse true status (inr (mkConfig f c' n' b' s' keys')))
          backend refused req
  ∧ (∀ r, r ∈ sent (fetch (NpointResponse true status
                             (inr (mkConfig f c n b s keys)))
                          backend refused req) →
          r = config_request
          ∨ out_url r = str_or f "https://fourt.io.vn" +:+ WEBHOOK_PATH)
  ∧ (∀ ks, res_body (answer (fetch npoint backend refused req)) ≠ NoTarget ks).
Proof.
  repeat apply conj.
  - unfold fetch. destruct (negb _); [reflexivity |].
    rewrite !targetUrl_of_present, !targetUrl_of_fourt. reflexivity.
  - intros r. unfold fetch. destruct (negb _); simpl; [by intros ?%elem_of_nil |].
    rewrite targetUrl_of_present, targetUrl_of_fourt. simpl.
    destruct (in_body req) as [m|body]; simpl.
    { rewrite list_elem_of_singleton. auto. }
    destruct (backend _) as [m|st [m|text]]; simpl;
      try destruct (status_allows_body st); simpl;
      rewrite !elem_of_cons, elem_of_nil;
      intros [-> | [-> | []]]; auto.
  - intros ks. unfold fetch. destruct (negb _); simpl; [discriminate |].
    destruct npoint as [m|[] st [m|data]]; simpl; try discriminate.
    rewrite targetUrl_of_present. simpl.
    destruct (in_body req) as [m|body]; simpl; [discriminate |].
    destruct (backend _) as [m|st' [m|text]]; simpl;
      try destruct (status_allows_body st'); simpl; discriminate.
Qed.

(** X3: a POST is passed through: when the configuration is read and
    the back end answers with a status a response with a body can
    carry, the worker returns that status and that text, names the
    target in X-Proxied-To, and has sent the back end one POST with
    the incoming body and the incoming authorization header (empty
    when there was none). *)
Theorem proxy_passes_through (req : in_request) (cs : Z) (data : config)
    (body text : string) (status : Z) :
  in_method req = "POST" →
  npoint = NpointResponse true cs (inr data) →
  in_body req = inr body →
  backend (forward_request req (str_or (fourt_url data) "https://fourt.io.vn") body)
    = BackendResponse status (inr text) →
  status_allows_body status = true →
  ∃ fwd,
    sent (fetch npoint backend refused req) = [config_request; fwd]
    ∧ out_method fwd = "POST"
    ∧ out_url fwd = str_or (fourt_url data) "https://fourt.io.vn" +:+ "/sepay/webhook"
    ∧ out_body fwd = Some body
    ∧ out_headers fwd !! "Authorization"
      = Some (default "" (in_headers req !! "authorization"))
    ∧ res_status (answer (fetch npoint backend refused req)) = status
    ∧ res_body (answer (fetch npoint backend refused req)) = Raw text
    ∧ res_headers (answer (fetch npoint backend refused req)) !! "X-Proxied-To"
      = Some (str_or (fourt_url data) "https://fourt.io.vn").
Proof.
  intros Hm Hn Hb Hbk Hst. unfold fetch. rewrite Hm, Hn. simpl.
  rewrite targetUrl_of_present, targetUrl_of_fourt, Hb. simpl.
  rewrite Hbk, Hst. simpl.
  eexists. split; [reflexivity |]. simpl.
  repeat split.
  unfold header_or_empty.
  destruct (in_headers req !! "authorization") as [v|]; simpl; [| reflexivity].
  unfold str_or. by destruct (String.eqb_spec v "") as [-> |].
Qed.

(** X4: whatever happens, the answer is declared as JSON, at most two
    requests leave the worker, the configuration lookup first, and any
    answer that does not relay the back end has status 405, 502 or
    500. *)
Theorem proxy_answers (req : in_request) :
  res_headers (answer (fetch npoint backend refused req)) !! "Content-Type"
    = Some "application/json"
  ∧ (sent (fetch npoint backend refused req) = []
     ∨ sent (fetch npoint backend refused req) = [config_request]
     ∨ ∃ fwd, sent (fetch npoint backend refused req) = [config_request; fwd])
  ∧ ((∃ text, res_body (answer (fetch npoint backend refused req)) = Raw text)
     ∨ res_status (answer (fetch npoint backend refused req)) = 405
     ∨ res_status (answer (fetch npoint backend refused req)) = 502
     ∨ res_status (answer (fetch npoint backend refused req)) = 500).
Proof.
  assert (Hgoal : ∀ o : outcome,
    res_headers (answer o) !! "Content-Type" = Some "application/json" →
    (sent o = [] ∨ sent o = [config_request]
     ∨ ∃ fwd, sent o = [config_request; fwd]) →
    ((∃ text, res_body (answer o) = Raw text) ∨ res_status (answer o) = 405
     ∨ res_status (answer o) = 502 ∨ res_status (answer o) = 500) →
    res_headers (answer o) !! "Content-Type" = Some "application/json"
    ∧ (sent o = [] ∨ sent o = [config_request]
       ∨ ∃ fwd, sent o = [config_request; fwd])
    ∧ ((∃ text, res_body (answer o) = Raw text) ∨ res_status (answer o) = 405
       ∨ res_status (answer o) = 502 ∨ res_status (answer o) = 500))
    by auto.
  unfold fetch. destruct (negb _); [apply Hgoal; simpl; auto |].
  destruct npoint as [m|[] st [m|data]]; try (apply Hgoal; simpl; by auto).
  rewrite targetUrl_of_present. simpl.
  destruct (in_body req) as [m|body]; [apply Hgoal; simpl; by auto |].
  destruct (backend _) as [m|st' [m|text]];
    try destruct (status_allows_body st');
    apply Hgoal; simpl; eauto.
Qed.

End ProxyFacts.

(** ** The session across handlers *)

Section SessionRunFacts.
Import Session Actions.

Variable env : list request → fetch_result.
Variable user_initial : bool.

Lemma rateMidi_session (midiId : N) (stars : Z) (w : world) :
  sess (rateMidi env midiId stars w).2 = sess w.
Proof.
  unfold rateMidi, bind, get_session, fetchWithAuth, fetch, bind. simpl.
  destruct (currentUser (sess w)); [| reflexivity]. simpl.
  destruct (env _) as [|[] [b|]]; reflexivity.
Qed.

Lemma addComment_session (midiId : N) (input : ustring) (w : world) :
  sess (addComment env midiId input w).2 = sess w.
Proof.
  unfold addComment. destruct (trim input); [reflexivity |].
  unfold bind, get_session, fetchWithAuth, fetch, bind. simpl.
  destruct (env _) as [|[] [b|]]; reflexivity.
Qed.

Lemma stored_as_set (t : jsstr) (k : string) (m : gmap string string) :
  stored_as t (<[k := to_string t]> m !! k).
Proof. left. apply lookup_insert_eq. Qed.

Lemma tokens_stored_issued (u : option user) (a r : jsstr)
    (m : gmap string string) :
  tokens_stored
    (mkSession u a r
       (<["refresh_token" := to_string r]> (<["access_token" := to_string a]> m))).
Proof.
  split; simpl.
  - left. rewrite lookup_insert_ne by discriminate. apply lookup_insert_eq.
  - apply stored_as_set.
Qed.

Lemma tokens_stored_cleared (m : gmap string string) :
  tokens_stored
    (mkSession None Null Null (delete "refresh_token" (delete "access_token" m))).
Proof.
  split; simpl; right; split; try reflexivity.
  - rewrite lookup_delete_ne by discriminate. apply lookup_delete_eq.
  - apply lookup_delete_eq.
Qed.

Lemma tokens_stored_initial (storage : gmap string string) :
  tokens_stored (initial_session storage).
Proof.
  unfold tokens_stored, initial_session, localStorage_getItem. simpl.
  split.
  - destruct (storage !! "access_token"); [by left | by right].
  - destruct (storage !! "refresh_token"); [by left | by right].
Qed.

Lemma logout_session (w : world) :
  sess (logout user_initial w).2
  = mkSession None Null Null
      (delete "refresh_token" (delete "access_token" (localStorage (sess w)))).
Proof. reflexivity. Qed.

Lemma handleLogin_tokens_stored (email password : string) (w : world) :
  tokens_stored (sess w) →
  tokens_stored (sess (handleLogin env user_initial email password w).2).
Proof.
  intros H. unfold handleLogin, bind, fetch, bind. simpl.
  destruct (env _) as [|[] [b|]]; simpl; try exact H.
  destruct (updateAuthUI_throws user_initial (body_user b)); simpl;
    apply tokens_stored_issued.
Qed.

Lemma refreshAccessToken_tokens_stored (w : world) :
  tokens_stored (sess w) →
  tokens_stored (sess (refreshAccessToken env w).2).
Proof.
  intros H. destruct (present (refreshToken (sess w))) eqn:Hp.
  - rewrite (refreshAccessToken_unfold env w Hp). simpl.
    destruct (env _) as [|[] [b|]]; simpl; try exact H.
    apply tokens_stored_issued.
  - by rewrite (refreshAccessToken_absent env w Hp).
Qed.

Lemma checkAuth_tokens_stored (w : world) :
  tokens_stored (sess w) → tokens_stored (sess (checkAuth env user_initial w).2).
Proof.
  intros H. unfold checkAuth, checkAuth_begin, bind, get_session. simpl.
  destruct (present (accessToken (sess w))); simpl; [| exact H].
  unfold checkAuth_resume.
  destruct (env _) as [|[] [me|] ]; simpl; try exact H.
  - unfold bind. simpl.
    destruct (updateAuthUI_throws user_initial (body_user me)); exact H.
  - unfold bind. simpl.
    match goal with
    | |- context [refreshAccessToken env ?w1] =>
        pose proof (refreshAccessToken_tokens_stored w1 H) as Hr;
        destruct (refreshAccessToken env w1) as [[] w2]
    end; simpl in *; [exact Hr |].
    apply tokens_stored_cleared.
  - unfold bind. simpl.
    match goal with
    | |- context [refreshAccessToken env ?w1] =>
        pose proof (refreshAccessToken_tokens_stored w1 H) as Hr;
        destruct (refreshAccessToken env w1) as [[] w2]
    end; simpl in *; [exact Hr |].
    apply tokens_stored_cleared.
Qed.

Lemma perform_tokens_stored (w : world) (a : action) :
  tokens_stored (sess w) → tokens_stored (sess (perform env user_initial w a)).
Proof.
  intros H. destruct a; simpl.
  - by apply handleLogin_tokens_stored.
  - apply tokens_stored_cleared.
  - by apply refreshAccessToken_tokens_stored.
  - by apply checkAuth_tokens_stored.
  - by rewrite downloadMidi_session.
  - by rewrite rateMidi_session.
  - by rewrite addComment_session.
Qed.

Lemma run_tokens_stored (l : list action) (w : world) :
  tokens_stored (sess w) → tokens_stored (sess (run env user_initial w l)).
Proof.
  revert w. induction l as [|a l IH]; intros w H; [exact H |].
  simpl. apply IH. by apply perform_tokens_stored.
Qed.

Lemma reload_keeps (t : jsstr) (v : string) (entry : option string) :
  stored_as t entry → t = Str v →
  match entry with Some x => Str x | None => Null end = Str v.
Proof.
  intros H Ht. subst t. destruct H as [-> | [? _]]; [reflexivity | discriminate].
Qed.

(** X5: the tokens in memory and the tokens in localStorage never
    drift apart: from the moment the page is loaded, after any
    sequence of logins, logouts, refreshes, auth checks, downloads,
    ratings and comments, and whatever the server answers, each token
    entry of localStorage holds the string form of the token variable
    (or both are empty), so a reload brings back exactly the token
    strings that were held. *)
Theorem session_tokens_mirror_storage (l : list action) :
  (∀ storage e,
     tokens_stored (sess (run env user_initial (mkWorld (initial_session storage) e) l)))
  ∧ (∀ w, tokens_stored (sess w) → tokens_stored (sess (run env user_initial w l)))
  ∧ (∀ w v,
       tokens_stored (sess w) →
       accessToken (sess (run env user_initial w l)) = Str v →
       accessToken (reload (sess (run env user_initial w l))) = Str v)
  ∧ (∀ w v,
       tokens_stored (sess w) →
       refreshToken (sess (run env user_initial w l)) = Str v →
       refreshToken (reload (sess (run env user_initial w l))) = Str v).
Proof.
  repeat apply conj.
  - intros storage e. apply run_tokens_stored. apply tokens_stored_initial.
  - intros w. apply run_tokens_stored.
  - intros w v H Hv. destruct (run_tokens_stored l w H) as [Ha _].
    exact (reload_keeps _ _ _ Ha Hv).
  - intros w v H Hv. destruct (run_tokens_stored l w H) as [_ Hr].
    exact (reload_keeps _ _ _ Hr Hv).
Qed.

(** X6: logout is final across a reload: afterwards the reloaded page
    holds no token and no user, its checkAuth sends nothing, and
    logout has removed only the two token entries from localStorage. *)
Theorem logout_survives_reload (w : world) (e : effects) :
  accessToken (reload (sess (logout user_initial w).2)) = Null
  ∧ refreshToken (reload (sess (logout user_initial w).2)) = Null
  ∧ currentUser (reload (sess (logout user_initial w).2)) = None
  ∧ requests (eff (checkAuth env user_initial (mkWorld (reload (sess (logout user_initial w).2)) e)).2)
    = requests e
  ∧ (∀ k, k ≠ "access_token" → k ≠ "refresh_token" →
          localStorage (sess (logout user_initial w).2) !! k = localStorage (sess w) !! k).
Proof.
  assert (Ha : accessToken (reload (sess (logout user_initial w).2)) = Null).
  { unfold reload, initial_session, localStorage_getItem. simpl.
    rewrite lookup_delete_ne by discriminate. by rewrite lookup_delete_eq. }
  assert (Hr : refreshToken (reload (sess (logout user_initial w).2)) = Null).
  { unfold reload, initial_session, localStorage_getItem. simpl.
    by rewrite lookup_delete_eq. }
  repeat apply conj; try assumption; try reflexivity.
  - unfold checkAuth, checkAuth_begin, bind, get_session.
    cbn [sess fst snd]. rewrite Ha. reflexivity.
  - intros k H1 H2. simpl. by rewrite !lookup_delete_ne.
Qed.

(** X7: what checkAuth ends in.  Without an access token it sends
    nothing and leaves the session alone (a user that is set stays
    set).  With one, a positive answer to "who am I" sets the user and
    keeps the tokens.  A negative answer leads to a refresh: if no
    refresh token is held, or the refresh is refused, the user is
    logged out and both tokens are gone from memory and from
    localStorage; if the refresh succeeds the new tokens are held and
    another checkAuth is started. *)
Theorem checkAuth_outcomes (w : world) :
  (present (accessToken (sess w)) = false →
     requests (eff (checkAuth env user_initial w).2) = requests (eff w)
     ∧ sess (checkAuth env user_initial w).2 = sess w)
  ∧ (∀ me,
       present (accessToken (sess w)) = true →
       env (requests (eff w) ++ [auth_request (sess w) "/auth/me" no_options])
         = Response true (Some me) →
       sess (checkAuth env user_initial w).2
       = mkSession (body_user me) (accessToken (sess w)) (refreshToken (sess w))
                   (localStorage (sess w)))
  ∧ (∀ j,
       present (accessToken (sess w)) = true →
       env (requests (eff w) ++ [auth_request (sess w) "/auth/me" no_options])
         = Response false j →
       (present (refreshToken (sess w)) = false
        ∨ ∃ j', env (requests (eff w)
                     ++ [auth_request (sess w) "/auth/me" no_options]
                     ++ [refresh_request (sess w)])
                = Response false j') →
       sess (checkAuth env user_initial w).2
       = mkSession None Null Null
           (delete "refresh_token"
              (delete "access_token" (localStorage (sess w)))))
  ∧ (∀ j data,
       present (accessToken (sess w)) = true →
       env (requests (eff w) ++ [auth_request (sess w) "/auth/me" no_options])
         = Response false j →
       present (refreshToken (sess w)) = true →
       env (requests (eff w)
            ++ [auth_request (sess w) "/auth/me" no_options]
            ++ [refresh_request (sess w)])
         = Response true (Some data) →
       accessToken (sess (checkAuth env user_initial w).2) = access_token data
       ∧ refreshToken (sess (checkAuth env user_initial w).2) = refresh_token data
       ∧ currentUser (sess (checkAuth env user_initial w).2) = currentUser (sess w)
       ∧ spawned (eff (checkAuth env user_initial w).2) = spawned (eff w) ++ ["checkAuth"]).
Proof.
  repeat apply conj.
  - intros Hp. unfold checkAuth, checkAuth_begin, bind, get_session.
    rewrite Hp. simpl. auto.
  - intros me Hp Hme. unfold checkAuth, checkAuth_begin, bind, get_session.
    rewrite Hp. simpl. rewrite Hme. unfold checkAuth_resume, bind. simpl.
    by destruct (updateAuthUI_throws user_initial (body_user me)).
  - intros j Hp Hme Hrf. unfold checkAuth, checkAuth_begin, bind, get_session.
    rewrite Hp. simpl. rewrite Hme. simpl. unfold bind.
    destruct Hrf as [Hno | [j' Hj']].
    + rewrite refreshAccessToken_absent by exact Hno. reflexivity.
    + destruct (present (refreshToken (sess w))) eqn:Hrt.
      * rewrite refreshAccessToken_unfold by exact Hrt. simpl.
        rewrite <- app_assoc. simpl in Hj'. simpl. rewrite Hj'. reflexivity.
      * rewrite refreshAccessToken_absent by exact Hrt. reflexivity.
  - intros j data Hp Hme Hrt Hok.
    unfold checkAuth, checkAuth_begin, bind, get_session.
    rewrite Hp. simpl. rewrite Hme. simpl. unfold bind.
    rewrite refreshAccessToken_unfold by exact Hrt. simpl.
    rewrite <- app_assoc. simpl in Hok. simpl. rewrite Hok. simpl. auto.
Qed.

(** X8: downloading, rating and commenting never write the session:
    whatever the server answers, the user, both tokens and localStorage
    are afterwards what they were before. *)
Theorem page_actions_keep_session (midiId : N) (stars : Z) (input : ustring)
    (w : world) :
  sess (downloadMidi env midiId w).2 = sess w
  ∧ sess (rateMidi env midiId stars w).2 = sess w
  ∧ sess (addComment env midiId input w).2 = sess w.
Proof.
  split; [apply downloadMidi_session |].
  split; [apply rateMidi_session | apply addComment_session].
Qed.

End SessionRunFacts.

(** ** Trimmed comments and prices outside the tables *)

Section MoreCommentFacts.
Import Session.

Variable env : list request → fetch_result.

Lemma trim_start_last (l : ustring) (c : N) :
  last l = Some c → is_whitespace c = false → last (trim_start l) = Some c.
Proof.
  induction l as [|x l IH]; intros Hl Hc; [discriminate |].
  simpl. destruct (is_whitespace x) eqn:Hx; [| exact Hl].
  apply IH; [| exact Hc].
  destruct l as [|y l]; [| exact Hl].
  simpl in Hl. injection Hl as ->. congruence.
Qed.

Lemma rev_reverse (l : ustring) : rev l = reverse l.
Proof. unfold reverse. apply rev_alt. Qed.

Lemma forallb_rev (l : ustring) :
  forallb is_whitespace l = true → forallb is_whitespace (rev l) = true.
Proof.
  rewrite !forallb_forall. intros H x Hx. apply H. by apply in_rev.
Qed.

(** trim_start removes a prefix of white space and nothing else. *)
Lemma trim_start_split (l : ustring) :
  ∃ before, l = before ++ trim_start l
            ∧ forallb is_whitespace before = true.
Proof.
  induction l as [|x l (before & Hb & Hw)]; [by exists [] |].
  simpl. destruct (is_whitespace x) eqn:Hx.
  - exists (x :: before). simpl. rewrite Hx, Hw. split; [congruence | done].
  - by exists [].
Qed.

Lemma trim_split (l : ustring) :
  ∃ before after, l = before ++ trim l ++ after
                  ∧ forallb is_whitespace before = true
                  ∧ forallb is_whitespace after = true.
Proof.
  destruct (trim_start_split l) as (before & Hb & Hwb).
  destruct (trim_start_split (rev (trim_start l))) as (after & Ha & Hwa).
  exists before, (rev after). repeat split; [| exact Hwb | by apply forallb_rev].
  unfold trim. rewrite <- rev_app_distr, <- Ha, rev_involutive. exact Hb.
Qed.

(** What trim returns neither starts nor ends with white space. *)
Lemma trim_ends (l : ustring) :
  (∀ c, head (trim l) = Some c → is_whitespace c = false)
  ∧ (∀ c, last (trim l) = Some c → is_whitespace c = false).
Proof.
  unfold trim. split; intros c Hc.
  - rewrite rev_reverse, head_reverse in Hc.
    pose proof (trim_start_head l) as Hh.
    destruct (trim_start l) as [|x t] eqn:Et.
    { simpl in Hc. discriminate. }
    assert (Hlast : last (rev (x :: t)) = Some x).
    { by rewrite rev_reverse, last_reverse. }
    rewrite (trim_start_last _ _ Hlast Hh) in Hc. congruence.
  - rewrite rev_reverse, last_reverse in Hc.
    pose proof (trim_start_head (rev (trim_start l))) as Hh.
    destruct (trim_start (rev (trim_start l))) as [|x t]; [discriminate |].
    simpl in Hc. congruence.
Qed.

(** X9: addComment sends a request exactly when the input holds
    something besides white space: a blank input changes nothing at
    all, any other input leads to one POST to the comments of the
    piece whose content is the input without its leading and trailing
    white space. *)
Theorem addComment_sends_iff_not_blank (midiId : N) (input : ustring)
    (w : world) :
  (forallb is_whitespace input = true →
     addComment env midiId input w = (tt, w))
  ∧ (forallb is_whitespace input = false →
     ∃ rq content,
       requests (eff (addComment env midiId input w).2)
         = requests (eff w) ++ [rq]
       ∧ req_method rq = "POST"
       ∧ req_url rq = "/api/community/midi/" +:+ pretty midiId +:+ "/comments"
       ∧ req_body rq = Some (BodyContent content)
       ∧ content ≠ []
       ∧ (∀ c, head content = Some c → is_whitespace c = false)
       ∧ (∀ c, last content = Some c → is_whitespace c = false)
       ∧ ∃ before after, input = before ++ content ++ after
                         ∧ forallb is_whitespace before = true
                         ∧ forallb is_whitespace after = true).
Proof.
  split.
  - intros H. apply (addComment_empty env). by apply trim_nil.
  - intros H.
    assert (Hne : trim input ≠ []).
    { intros E. apply trim_nil in E. congruence. }
    exists (auth_request (sess w) (midi_url midiId "/comments")
              (mkOptions (Some "POST") ∅ (Some (BodyContent (trim input))))),
           (trim input).
    destruct (trim_ends input) as [Hhead Hlast].
    split; [by apply addComment_sends |].
    repeat split; auto. apply trim_split.
Qed.

End MoreCommentFacts.

Section MorePricingFacts.
Import Js Pricing.

Lemma baseCosts_range (k : string) (b : Z) :
  baseCosts !! k = Some b → 3 ≤ b ≤ 15.
Proof.
  unfold baseCosts. rewrite !lookup_insert, lookup_empty.
  repeat case_decide; intros [= <-]; lia.
Qed.

Lemma discounts_range (k : string) (d : Z) :
  discounts !! k = Some d → 0 ≤ d ≤ 99.
Proof.
  unfold discounts. rewrite !lookup_insert, lookup_empty.
  repeat case_decide; intros [= <-]; lia.
Qed.

(** X10: for rank and type strings that are not names of properties
    every object inherits, getDownloadCost returns an integer between
    0 and 15, prices a type missing from the cost table as "normal"
    and a rank missing from the discount table as "newcomer". *)
Theorem getDownloadCost_outside_prototype (rank ty : string) :
  inherited rank = false → inherited ty = false →
  (∃ n, getDownloadCost rank ty = VNum n ∧ 0 ≤ n ≤ 15)
  ∧ (baseCosts !! ty = None →
     getDownloadCost rank ty = getDownloadCost rank "normal")
  ∧ (discounts !! rank = None →
     getDownloadCost rank ty = getDownloadCost "newcomer" ty).
Proof.
  intros Hr Ht. repeat apply conj.
  - unfold getDownloadCost.
    assert (Hb : ∃ b, or_else (get baseCosts ty) (VNum 3) = VNum b ∧ 3 ≤ b ≤ 15).
    { destruct (baseCosts !! ty) as [b|] eqn:E.
      - rewrite (get_own _ _ _ E). unfold or_else. simpl.
        pose proof (baseCosts_range _ _ E).
        destruct (Z.eqb_spec b 0); simpl; [lia | eauto].
      - rewrite (get_missing _ _ E Ht). simpl. exists 3. split; [done | lia]. }
    assert (Hd : ∃ d, or_else (get discounts rank) (VNum 0) = VNum d ∧ 0 ≤ d).
    { destruct (discounts !! rank) as [d|] eqn:E.
      - rewrite (get_own _ _ _ E). unfold or_else. simpl.
        pose proof (discounts_range _ _ E).
        destruct (Z.eqb_spec d 0); simpl; [exists 0; split; [done | lia] |].
        exists d. split; [done | lia].
      - rewrite (get_missing _ _ E Hr). simpl. exists 0. split; [done | lia]. }
    destruct Hb as (b & -> & Hb), Hd as (d & -> & Hd). simpl.
    eexists. split; [reflexivity | lia].
  - intros E. by apply getDownloadCost_default_type.
  - intros E. by apply getDownloadCost_default_rank.
Qed.

End MorePricingFacts.

(** ** MIDI preview player *)

Section PlayerFacts.
Import Player.

Variable loaded : bool.
Variable plays : string → bool.

Lemma no_overlap_cons (e : engine_event) (l : list engine_event) :
  no_overlap (e :: l)
  = match e, l with
    | CallPlay _ true, CallPlay _ _ :: _ => false
    | _, _ => no_overlap l
    end.
Proof. destruct e as [u []| |], l as [|[] l]; reflexivity. Qed.

Lemma no_overlap_snoc_quiet (l : list engine_event) (e : engine_event) :
  (∀ u b, e ≠ CallPlay u b) →
  no_overlap (l ++ [e]) = no_overlap l.
Proof.
  intros He. induction l as [|x l IH].
  - destruct e as [u b| |]; [by destruct (He u b) | reflexivity | reflexivity].
  - change ((x :: l) ++ [e]) with (x :: (l ++ [e])).
    rewrite !no_overlap_cons, IH.
    destruct x as [u []| |]; try reflexivity.
    destruct l as [|y l]; simpl.
    + destruct e as [u' b'| |]; [by destruct (He u' b') | done | done].
    + reflexivity.
Qed.

Lemma no_overlap_snoc_play (l : list engine_event) (u : string) (b : bool) :
  no_overlap (l ++ [CallPlay u b]) = no_overlap l && negb (started_last l).
Proof.
  induction l as [|x l IH]; [by destruct b |].
  change ((x :: l) ++ [CallPlay u b]) with (x :: (l ++ [CallPlay u b])).
  rewrite !no_overlap_cons, IH.
  destruct l as [|y l].
  - destruct x as [u' []| |]; reflexivity.
  - assert (Hs : started_last (x :: y :: l) = started_last (y :: l)) by done.
    rewrite Hs. simpl app.
    destruct x as [u' []| |]; try reflexivity.
    destruct y; reflexivity.
Qed.

Lemma started_last_snoc (l : list engine_event) (e : engine_event) :
  started_last (l ++ [e])
  = match e with CallPlay _ true => true | _ => false end.
Proof. unfold started_last. by rewrite last_snoc. Qed.

Local Abbreviation player_inv := (Player.player_inv loaded).

Lemma stopMidi_inv (p : player) : player_inv p → player_inv (stopMidi loaded p).
Proof.
  intros (Hno & Hq & Hl & Hid). unfold stopMidi, Player.player_inv.
  destruct loaded; simpl.
  - rewrite no_overlap_snoc_quiet by discriminate.
    rewrite started_last_snoc. repeat split; auto; discriminate.
  - rewrite <- Hq, (Hl eq_refl). repeat split; auto; discriminate.
Qed.

Lemma onMidiEnded_inv (p : player) : player_inv p → player_inv (onMidiEnded p).
Proof.
  intros (Hno & Hq & Hl & Hid). unfold onMidiEnded, Player.player_inv. simpl.
  rewrite no_overlap_snoc_quiet by discriminate.
  rewrite started_last_snoc. repeat split; auto; discriminate.
Qed.

Lemma playMidi_inv (midiId : N) (title : string) (p p' : player) :
  player_inv p → playMidi loaded plays midiId title p = Some p' → player_inv p'.
Proof.
  intros Hinv. pose proof Hinv as (Hno & Hq & Hl & Hid). unfold playMidi.
  destruct (isPlaying p && bool_decide _).
  { intros [= <-]. by apply stopMidi_inv. }
  destruct (isPlaying p) eqn:Hp; simpl.
  - destruct loaded eqn:Hld; simpl; [| discriminate].
    destruct (plays _); intros [= <-]; unfold Player.player_inv; simpl;
      rewrite no_overlap_snoc_play, started_last_snoc;
      rewrite no_overlap_snoc_quiet by discriminate;
      rewrite started_last_snoc, Hno; simpl.
    all: repeat split; eauto; try discriminate.
  - destruct loaded eqn:Hld; simpl.
    + destruct (plays _); intros [= <-]; unfold Player.player_inv; simpl;
        rewrite no_overlap_snoc_play, started_last_snoc, Hno, <- Hq; simpl.
      all: repeat split; eauto; try discriminate.
    + intros [= <-]. unfold Player.player_inv. simpl.
      repeat split; auto; discriminate.
Qed.

Lemma togglePlay_inv (p p' : player) :
  player_inv p → togglePlay loaded plays p = Some p' → player_inv p'.
Proof.
  intros Hinv. unfold togglePlay.
  destruct (negb (has_track p)); [by intros [= <-] |].
  destruct (isPlaying p); [intros [= <-]; by apply stopMidi_inv |].
  destruct (currentlyPlayingId p); [| by intros [= <-]].
  by apply playMidi_inv.
Qed.

Lemma player_step_inv (p : player) (op : player_op) :
  player_inv p → player_inv (player_step loaded plays p op).
Proof.
  intros Hinv. destruct op; simpl.
  - destruct (playMidi loaded plays midiId title p) eqn:E; simpl;
      [by eapply playMidi_inv | exact Hinv].
  - by apply stopMidi_inv.
  - destruct (togglePlay loaded plays p) eqn:E; simpl;
      [by eapply togglePlay_inv | exact Hinv].
  - by apply onMidiEnded_inv.
Qed.

Lemma player_run_inv (ops : list player_op) (p : player) :
  player_inv p → player_inv (player_run loaded plays p ops).
Proof.
  revert p. induction ops as [|op ops IH]; intros p H; [exact H |].
  simpl. apply IH. by apply player_step_inv.
Qed.

Lemma initial_player_inv : player_inv initial_player.
Proof. unfold Player.player_inv. simpl. repeat split; auto; discriminate. Qed.

(** X11: the preview player never lets two pieces sound at once and
    its flag tells the truth: after any sequence of play, stop, toggle
    and end-of-piece events from the initial state, whether or not the
    MIDIjs script is loaded and whichever plays fail, no started play
    is directly followed by another play, isPlaying is set exactly when
    the last thing the engine saw is a play that started, and it is
    never set without a current piece. *)
Theorem player_never_overlaps (ops : list player_op) :
  no_overlap (engine (player_run loaded plays initial_player ops)) = true
  ∧ isPlaying (player_run loaded plays initial_player ops)
    = started_last (engine (player_run loaded plays initial_player ops))
  ∧ (isPlaying (player_run loaded plays initial_player ops) = true →
     is_Some (currentlyPlayingId (player_run loaded plays initial_player ops))).
Proof.
  destruct (player_run_inv ops initial_player initial_player_inv)
    as (H1 & H2 & _ & H4).
  auto.
Qed.

Lemma stopMidi_fields (p : player) :
  currentlyPlayingId (stopMidi loaded p) = currentlyPlayingId p
  ∧ currentlyPlayingTitle (stopMidi loaded p) = currentlyPlayingTitle p
  ∧ isPlaying (stopMidi loaded p) = false.
Proof. unfold stopMidi. by destruct loaded. Qed.

Lemma playMidi_starts (id : N) (title : string) (p : player) :
  isPlaying p = false → loaded = true → plays (preview_url id) = true →
  ∃ p', playMidi loaded plays id title p = Some p'
        ∧ isPlaying p' = true
        ∧ currentlyPlayingId p' = Some id
        ∧ currentlyPlayingTitle p' = title
        ∧ engine p' = engine p ++ [CallPlay (preview_url id) true].
Proof.
  intros Hp Hld Hpl. unfold playMidi. rewrite Hp, Hld, Hpl. simpl.
  eexists. split; [reflexivity |]. simpl. auto.
Qed.

Lemma has_track_id (p : player) (id : N) :
  currentlyPlayingId p = Some id → id ≠ 0%N → has_track p = true.
Proof.
  intros Hid Hne. unfold has_track. rewrite Hid.
  by destruct (N.eqb_spec id 0).
Qed.

Lemma togglePlay_step (p : player) (id : N) :
  currentlyPlayingId p = Some id → id ≠ 0%N →
  loaded = true → plays (preview_url id) = true →
  ∃ p1, togglePlay loaded plays p = Some p1
        ∧ isPlaying p1 = negb (isPlaying p)
        ∧ currentlyPlayingId p1 = Some id
        ∧ currentlyPlayingTitle p1 = currentlyPlayingTitle p
        ∧ (isPlaying p = false →
           engine p1 = engine p ++ [CallPlay (preview_url id) true]).
Proof.
  intros Hid Hne Hld Hpl. unfold togglePlay.
  rewrite (has_track_id p id Hid Hne). simpl.
  destruct (isPlaying p) eqn:Hp.
  - exists (stopMidi loaded p).
    destruct (stopMidi_fields p) as (H1 & H2 & H3).
    rewrite H1, H2, H3. repeat split; auto; discriminate.
  - rewrite Hid.
    destruct (playMidi_starts id (currentlyPlayingTitle p) p Hp Hld Hpl)
      as (p' & Hrun & H1 & H2 & H3 & H4).
    exists p'. rewrite H1. auto.
Qed.

(** X12: togglePlay pauses and resumes the same piece.  Without a
    current piece (none yet, or the piece with id 0, which counts as
    none) it does nothing, even while that piece plays.  Otherwise,
    with the script loaded and the preview playable, it flips the flag
    and keeps piece and title, so that toggling twice is back where it
    started, and resuming asks the engine for the preview of the kept
    piece. *)
Theorem togglePlay_pauses_and_resumes (p : player) :
  (has_track p = false → togglePlay loaded plays p = Some p)
  ∧ (∀ id,
       currentlyPlayingId p = Some id → id ≠ 0%N →
       loaded = true → plays (preview_url id) = true →
       ∃ p1 p2,
         togglePlay loaded plays p = Some p1
         ∧ togglePlay loaded plays p1 = Some p2
         ∧ isPlaying p1 = negb (isPlaying p)
         ∧ isPlaying p2 = isPlaying p
         ∧ currentlyPlayingId p1 = Some id ∧ currentlyPlayingId p2 = Some id
         ∧ currentlyPlayingTitle p1 = currentlyPlayingTitle p
         ∧ currentlyPlayingTitle p2 = currentlyPlayingTitle p
         ∧ (isPlaying p = false →
            engine p1 = engine p ++ [CallPlay (preview_url id) true])).
Proof.
  split.
  - intros H. unfold togglePlay. by rewrite H.
  - intros id Hid Hne Hld Hpl.
    destruct (togglePlay_step p id Hid Hne Hld Hpl)
      as (p1 & Hrun1 & Hf1 & Hid1 & Ht1 & He1).
    destruct (togglePlay_step p1 id Hid1 Hne Hld Hpl)
      as (p2 & Hrun2 & Hf2 & Hid2 & Ht2 & _).
    exists p1, p2. repeat split; auto.
    + rewrite Hf2, Hf1. apply negb_involutive.
    + congruence.
Qed.

End PlayerFacts.

(** ** Page helpers *)

Section HelperFacts.
Import Session Helpers.

Lemma ceil_div_bounds (a b : Z) :
  0 < b → (ceil_div a b - 1) * b < a ≤ ceil_div a b * b.
Proof.
  intros Hb. unfold ceil_div.
  pose proof (Z.div_mod (- a) b ltac:(lia)) as Hdm.
  pose proof (Z.mod_pos_bound (- a) b Hb) as Hm.
  nia.
Qed.

(** X13: for safe integers, a non-negative total, a positive page
    size and at most max_buttons pages, renderPagination shows no
    buttons when everything fits on one page, and otherwise one button
    per page, numbered from 1, with as many pages as it takes to hold
    the total and not one more; the button of the current page, and no
    other, is marked active. *)
Theorem renderPagination_covers (total page pageSize : Z) :
  0 ≤ total < 2 ^ 53 → 0 < pageSize < 2 ^ 53 →
  total ≤ max_buttons * pageSize →
  ∃ buttons,
    renderPagination total page pageSize = Some buttons
    ∧ (buttons = [] ↔ total ≤ pageSize)
    ∧ (buttons ≠ [] →
       (Z.of_nat (length buttons) - 1) * pageSize < total
       ∧ total ≤ Z.of_nat (length buttons) * pageSize)
    ∧ buttons.*1 = seqZ 1 (Z.of_nat (length buttons))
    ∧ (∀ i active, (i, active) ∈ buttons → (active = true ↔ i = page)).
Proof.
  intros Ht Hp Hmax. unfold renderPagination.
  assert (Hs : is_safe_integer total && is_safe_integer pageSize = true).
  { unfold is_safe_integer. apply andb_true_intro; split;
      apply andb_true_intro; split; apply Z.ltb_lt; lia. }
  rewrite Hs. simpl.
  destruct (Z.eqb_spec pageSize 0); [lia |].
  pose proof (ceil_div_bounds total pageSize ltac:(lia)) as Hc.
  destruct (Z.leb_spec (ceil_div total pageSize) 1) as [Hle | Hgt].
  - exists []. split; [reflexivity |].
    split; [split; [intros _; nia | reflexivity] |].
    split; [done |]. split; [reflexivity |].
    intros i active Hin. by apply elem_of_nil in Hin.
  - destruct (Z.ltb_spec max_buttons (ceil_div total pageSize)) as [Hbig |];
      [unfold max_buttons in *; nia |].
    eexists. split; [reflexivity |].
    rewrite length_fmap, length_seqZ.
    rewrite Z2Nat.id by lia.
    split; [split |].
    + intros E. apply fmap_nil_inv in E.
      apply (f_equal length) in E. rewrite length_seqZ in E. simpl in E. lia.
    + intros Hle. nia.
    + split; [intros _; lia |].
      split; [rewrite <- list_fmap_compose; apply list_fmap_id |].
      intros i active Hin.
      apply list_elem_of_fmap in Hin as (j & [= -> ->] & _).
      apply Z.eqb_eq.
Qed.

(** Outside the safe integers the model renders nothing. *)
Example renderPagination_unsafe :
  renderPagination 13510798882111492 1 4503599627370497 = None.
Proof. reflexivity. Qed.

Lemma two_digits (k : nat) :
  (k < 60)%nat →
  padStart2 (pretty (Z.of_nat k))
  = pretty (Z.of_nat k / 10) +:+ pretty (Z.of_nat k mod 10).
Proof.
  intros Hk.
  do 60 (destruct k as [|k]; [vm_compute; reflexivity |]).
  lia.
Qed.

(** X14: formatDuration of a whole number of seconds from 0 up to the
    largest safe integer reads "m:ss": the minutes, a colon, and always
    exactly two digits of seconds, below 60, which together give the
    input back. *)
Theorem formatDuration_minutes_seconds (seconds : Z) :
  0 ≤ seconds < 2 ^ 53 →
  ∃ tens ones,
    0 ≤ tens ≤ 5 ∧ 0 ≤ ones ≤ 9
    ∧ formatDuration seconds
      = Some (pretty (seconds / 60) +:+ ":" +:+ pretty tens +:+ pretty ones)
    ∧ 60 * (seconds / 60) + 10 * tens + ones = seconds.
Proof.
  intros Hs. unfold formatDuration.
  assert (is_safe_integer seconds = true) as ->.
  { unfold is_safe_integer. apply andb_true_intro; split; apply Z.ltb_lt; lia. }
  rewrite Z.rem_mod_nonneg by lia.
  pose proof (Z.mod_pos_bound seconds 60 ltac:(lia)) as Hm.
  pose proof (Z.div_mod seconds 60 ltac:(lia)) as Hdm.
  exists (seconds mod 60 / 10), (seconds mod 60 mod 10).
  pose proof (Z.mod_pos_bound (seconds mod 60) 10 ltac:(lia)).
  pose proof (Z.div_mod (seconds mod 60) 10 ltac:(lia)).
  split; [lia |]. split; [lia |]. split; [| lia].
  pose proof (two_digits (Z.to_nat (seconds mod 60)) ltac:(lia)) as H2.
  rewrite Z2Nat.id in H2 by lia. by rewrite H2.
Qed.

(** X15: formatDate never shows a zero or an overflowing count: an
    age under a minute, and any date in the future, reads "just now";
    then come 1 to 59 minutes, 1 to 23 hours and 1 to 6 days; from a
    week on, and for a date that does not parse, the locale date is
    shown. *)
Theorem formatDate_ranges (d : Z) (locale : string) :
  formatDate None locale = locale
  ∧ (d < 60000 → formatDate (Some d) locale = "Vừa xong")
  ∧ (60000 ≤ d < 3600000 →
     ∃ n, 1 ≤ n ≤ 59 ∧ n = d / 60000
          ∧ formatDate (Some d) locale = pretty n +:+ " phút trước")
  ∧ (3600000 ≤ d < 86400000 →
     ∃ n, 1 ≤ n ≤ 23 ∧ n = d / 3600000
          ∧ formatDate (Some d) locale = pretty n +:+ " giờ trước")
  ∧ (86400000 ≤ d < 604800000 →
     ∃ n, 1 ≤ n ≤ 6 ∧ n = d / 86400000
          ∧ formatDate (Some d) locale = pretty n +:+ " ngày trước")
  ∧ (604800000 ≤ d → formatDate (Some d) locale = locale).
Proof.
  unfold formatDate. repeat apply conj; [reflexivity | ..]; intros H.
  - destruct (Z.ltb_spec d 60000); [reflexivity | lia].
  - destruct (Z.ltb_spec d 60000); [lia |].
    destruct (Z.ltb_spec d 3600000); [| lia].
    exists (d / 60000).
    pose proof (Z.div_mod d 60000 ltac:(lia)).
    pose proof (Z.mod_pos_bound d 60000 ltac:(lia)).
    repeat split; reflexivity || lia.
  - destruct (Z.ltb_spec d 60000); [lia |].
    destruct (Z.ltb_spec d 3600000); [lia |].
    destruct (Z.ltb_spec d 86400000); [| lia].
    exists (d / 3600000).
    pose proof (Z.div_mod d 3600000 ltac:(lia)).
    pose proof (Z.mod_pos_bound d 3600000 ltac:(lia)).
    repeat split; reflexivity || lia.
  - destruct (Z.ltb_spec d 60000); [lia |].
    destruct (Z.ltb_spec d 3600000); [lia |].
    destruct (Z.ltb_spec d 86400000); [lia |].
    destruct (Z.ltb_spec d 604800000); [| lia].
    exists (d / 86400000).
    pose proof (Z.div_mod d 86400000 ltac:(lia)).
    pose proof (Z.mod_pos_bound d 86400000 ltac:(lia)).
    repeat split; reflexivity || lia.
  - destruct (Z.ltb_spec d 60000); [lia |].
    destruct (Z.ltb_spec d 3600000); [lia |].
    destruct (Z.ltb_spec d 86400000); [lia |].
    destruct (Z.ltb_spec d 604800000); [lia | reflexivity].
Qed.

Lemma escape_unit_safe (c x : N) :
  x ∈ escape_unit c → x ≠ 60%N ∧ x ≠ 62%N ∧ x ≠ 160%N.
Proof.
  unfold escape_unit.
  destruct (N.eqb_spec c 38); [| destruct (N.eqb_spec c 160);
    [| destruct (N.eqb_spec c 60); [| destruct (N.eqb_spec c 62)]]];
    rewrite ?elem_of_cons, elem_of_nil; intros H;
    repeat (destruct H as [-> | H]); try done; lia.
Qed.

Lemma escape_unit_plain (c : N) :
  c ≠ 38%N → c ≠ 60%N → c ≠ 62%N → c ≠ 160%N → escape_unit c = [c].
Proof.
  intros. unfold escape_unit.
  destruct (N.eqb_spec c 38); [done |]. destruct (N.eqb_spec c 160); [done |].
  destruct (N.eqb_spec c 60); [done |]. by destruct (N.eqb_spec c 62).
Qed.

(** X16: what escapeHtml returns holds no "<", no ">" and no
    non-breaking space, so it cannot open or close a tag; a text
    without "&", "<", ">" and non-breaking spaces comes back unchanged
    (quotes included), and a missing text gives the empty string. *)
Theorem escapeHtml_no_markup (text : ustring) :
  (∀ x, x ∈ escapeHtml (Some text) → x ≠ 60%N ∧ x ≠ 62%N ∧ x ≠ 160%N)
  ∧ ((∀ c, c ∈ text → c ≠ 38%N ∧ c ≠ 60%N ∧ c ≠ 62%N ∧ c ≠ 160%N) →
     escapeHtml (Some text) = text)
  ∧ escapeHtml None = [] ∧ escapeHtml (Some []) = [].
Proof.
  repeat apply conj; try reflexivity.
  - intros x Hx. unfold escapeHtml in Hx.
    apply list_elem_of_bind in Hx as (c & Hx & _).
    by apply escape_unit_safe in Hx.
  - unfold escapeHtml. induction text as [|c l IH]; intros H; [reflexivity |].
    rewrite bind_cons.
    destruct (H c ltac:(left)) as (? & ? & ? & ?).
    rewrite escape_unit_plain by assumption. simpl. f_equal.
    apply IH. intros c' Hc'. apply H. by right.
Qed.

End HelperFacts.

(** ** Language switch *)

Section I18nFacts.
Import Session I18n.

Lemma applyTranslations_lang (st : state) :
  currentLang (applyTranslations st) = currentLang st
  ∧ stored (applyTranslations st) = stored st
  ∧ toggle_handlers (applyTranslations st) = toggle_handlers st.
Proof.
  unfold applyTranslations.
  destruct (translations st) as [has|]; [| done].
  by destruct (has (currentLang st)).
Qed.

Lemma set_language_lang (lang : string) (st : state) :
  currentLang (set_language lang st) = lang
  ∧ stored (set_language lang st) = Some lang
  ∧ toggle_handlers (set_language lang st) = toggle_handlers st.
Proof.
  unfold set_language.
  destruct (applyTranslations_lang
              (mkState lang (Some lang) (translations st) (html_lang st)
                       (toggle_handlers st) (i18n_console st)))
    as (-> & -> & ->).
  done.
Qed.

Lemma init_persisted (loaded : option (string → bool)) (has_toggle : bool)
    (st : state) :
  lang_persisted (init loaded has_toggle st)
  ∧ stored (init loaded has_toggle st) = stored st.
Proof.
  unfold lang_persisted, init. destruct loaded as [has|]; [| done].
  match goal with
  | |- context [applyTranslations ?s] =>
      destruct (applyTranslations_lang s) as (H1 & H2 & H3)
  end.
  destruct has_toggle; simpl; rewrite H1, H2; done.
Qed.

Lemma toggle_persisted (st : state) : lang_persisted (toggle st).
Proof.
  unfold lang_persisted, toggle.
  destruct (set_language_lang
              (if String.eqb (currentLang st) "en" then "vi" else "en") st)
    as (-> & -> & _).
  by destruct (String.eqb (currentLang st) "en").
Qed.

Lemma iter_toggle_persisted (n : nat) (st : state) :
  lang_persisted st → lang_persisted (Nat.iter n toggle st).
Proof.
  intros H. destruct n as [|n]; [exact H |]. simpl. apply toggle_persisted.
Qed.

Lemma apply_op_persisted (st : state) (op : user_op) :
  lang_persisted st → lang_persisted (apply_op st op).
Proof.
  intros H. destruct op as [|lang]; simpl.
  - by apply iter_toggle_persisted.
  - unfold setLang.
    destruct (String.eqb_spec lang "en") as [-> |];
      [| destruct (String.eqb_spec lang "vi") as [-> |]]; simpl;
      try exact H.
    + unfold lang_persisted.
      by destruct (set_language_lang "en" st) as (-> & -> & _).
    + unfold lang_persisted.
      by destruct (set_language_lang "vi" st) as (-> & -> & _).
Qed.

Lemma run_persisted (ops : list user_op) (st : state) :
  lang_persisted st → lang_persisted (foldl apply_op st ops).
Proof.
  revert st. induction ops as [|op ops IH]; intros st H; [exact H |].
  simpl. apply IH. by apply apply_op_persisted.
Qed.

(** X17: the language choice survives a reload: once init has run,
    after any sequence of clicks on the toggle and calls of setLang,
    loading the page again (whether or not the translations load then)
    starts in the language that was last shown. *)
Theorem language_survives_reload (loaded loaded' : option (string → bool))
    (has_toggle has_toggle' : bool) (st0 : state) (ops : list user_op) :
  getLang (reload loaded' has_toggle'
             (foldl apply_op (init loaded has_toggle st0) ops))
  = getLang (foldl apply_op (init loaded has_toggle st0) ops).
Proof.
  pose proof (run_persisted ops _ (proj1 (init_persisted loaded has_toggle st0)))
    as H.
  unfold getLang, reload. rewrite H.
  destruct (init_persisted loaded' has_toggle'
              (fresh (stored (foldl apply_op (init loaded has_toggle st0) ops))))
    as [-> ->].
  reflexivity.
Qed.

(** X18: which languages can be chosen.  setLang ignores every
    argument but "en" and "vi" and otherwise shows and stores its
    argument.  One toggle always lands on "en" or "vi": on "vi" from
    "en" and on "en" from anything else; with a single click handler a
    click therefore switches between the two, while on a page where
    init ran twice the two handlers undo each other and a click leaves
    the language as it was. *)
Theorem language_choices (lang : string) (st : state) :
  (lang ≠ "en" → lang ≠ "vi" → setLang lang st = st)
  ∧ (lang = "en" ∨ lang = "vi" →
     getLang (setLang lang st) = lang ∧ stored (setLang lang st) = Some lang)
  ∧ (getLang (toggle st) = "en" ∨ getLang (toggle st) = "vi")
  ∧ getLang (toggle st) ≠ getLang st
  ∧ (toggle_handlers st = 1%nat →
     getLang (click st) = (if String.eqb (getLang st) "en" then "vi" else "en")
     ∧ stored (click st) = Some (getLang (click st)))
  ∧ (toggle_handlers st = 2%nat →
     getLang st = "en" ∨ getLang st = "vi" →
     getLang (click st) = getLang st).
Proof.
  assert (Htog : ∀ s, currentLang (toggle s)
                      = (if String.eqb (currentLang s) "en" then "vi" else "en")
                      ∧ stored (toggle s) = Some (currentLang (toggle s))).
  { intros s. unfold toggle.
    by destruct (set_language_lang
                   (if String.eqb (currentLang s) "en" then "vi" else "en") s)
      as (-> & -> & _). }
  unfold getLang. repeat apply conj.
  - intros H1 H2. unfold setLang.
    destruct (String.eqb_spec lang "en"); [contradiction |].
    by destruct (String.eqb_spec lang "vi").
  - intros H. unfold setLang.
    assert (negb (String.eqb lang "en") && negb (String.eqb lang "vi") = false)
      as -> by (by destruct H as [-> | ->]).
    by destruct (set_language_lang lang st) as (-> & -> & _).
  - rewrite (proj1 (Htog st)).
    destruct (String.eqb (currentLang st) "en"); auto.
  - rewrite (proj1 (Htog st)).
    destruct (String.eqb_spec (currentLang st) "en") as [-> |]; congruence.
  - intros H. unfold click. rewrite H. simpl. apply Htog.
  - intros H Hl. unfold click. rewrite H. simpl.
    rewrite (proj1 (Htog (toggle st))), (proj1 (Htog st)).
    by destruct Hl as [-> | ->].
Qed.

End I18nFacts.

(** ** Logging in *)

Section LoginFacts.
Import Session.

Variable env : list request → fetch_result.
Variable user_initial : bool.

Lemma handleLogin_unfold (email password : string) (w : world) :
  handleLogin env user_initial email password w
  = let e := log_request (Actions.login_request email password) (eff w) in
    match env (requests e) with
    | Response true (Some data) =>
        let s' :=
          mkSession (body_user data) (access_token data) (refresh_token data)
            (<["refresh_token" := to_string (refresh_token data)]>
               (<["access_token" := to_string (access_token data)]>
                  (localStorage (sess w)))) in
        if updateAuthUI_throws user_initial (body_user data) then
          (tt,
           mkWorld s'
             (mkEffects (requests e)
                (toasts e ++ [(Str "Lỗi kết nối server", "error")]) (modals e)
                (page e ++ [ShowUser (body_user data)]) (console e)
                (saved_files e) (spawned e)))
        else
          (tt,
           mkWorld s'
             (mkEffects (requests e)
                (toasts e ++ [(Str "Đăng nhập thành công!", "success")]) ∅
                (page e ++ [ShowUser (body_user data)]) (console e)
                (saved_files e) (spawned e)))
    | Response false (Some error) =>
        (tt,
         mkWorld (sess w)
           (mkEffects (requests e)
              (toasts e ++ [(Str (str_or (detail error) "Đăng nhập thất bại"),
                             "error")])
              (modals e) (page e) (console e) (saved_files e) (spawned e)))
    | _ =>
        (tt,
         mkWorld (sess w)
           (mkEffects (requests e)
              (toasts e ++ [(Str "Lỗi kết nối server", "error")])
              (modals e) (page e) (console e) (saved_files e) (spawned e)))
    end.
Proof.
  unfold handleLogin, bind, fetch, bind. simpl.
  destruct (env _) as [|[] [b|]]; try reflexivity.
  simpl. by destruct (updateAuthUI_throws user_initial (body_user b)).
Qed.

(** X19: handleLogin sends the credentials in one POST that carries no
    Authorization header, whatever token is held.  If the server
    accepts them, the user and both tokens of the answer are held and
    stored; then, unless updateAuthUI throws, every modal is closed and
    the success toast is shown.  When updateAuthUI throws (the page has
    the element for the user's initial and the user name is empty) the
    login has taken effect all the same, but the modals stay as they
    were and the connection error toast is shown.  In every other case
    (refusal, network failure, undecodable answer) the session is left
    as it was and an error toast is shown. *)
Theorem handleLogin_outcomes (email password : string) (w : world) :
  (∃ rq,
     requests (eff (handleLogin env user_initial email password w).2)
       = requests (eff w) ++ [rq]
     ∧ req_method rq = "POST" ∧ req_url rq = "/api/auth/login"
     ∧ req_body rq = Some (BodyLogin email password)
     ∧ req_headers rq !! "Authorization" = None)
  ∧ (∀ data,
       env (requests (eff w) ++ [Actions.login_request email password])
         = Response true (Some data) →
       currentUser (sess (handleLogin env user_initial email password w).2)
       = body_user data
       ∧ accessToken (sess (handleLogin env user_initial email password w).2)
         = access_token data
       ∧ refreshToken (sess (handleLogin env user_initial email password w).2)
         = refresh_token data
       ∧ localStorage (sess (handleLogin env user_initial email password w).2)
           !! "access_token" = Some (to_string (access_token data))
       ∧ localStorage (sess (handleLogin env user_initial email password w).2)
           !! "refresh_token" = Some (to_string (refresh_token data))
       ∧ (updateAuthUI_throws user_initial (body_user data) = false →
          modals (eff (handleLogin env user_initial email password w).2) = ∅
          ∧ toasts (eff (handleLogin env user_initial email password w).2)
            = toasts (eff w) ++ [(Str "Đăng nhập thành công!", "success")])
       ∧ (updateAuthUI_throws user_initial (body_user data) = true →
          modals (eff (handleLogin env user_initial email password w).2)
          = modals (eff w)
          ∧ toasts (eff (handleLogin env user_initial email password w).2)
            = toasts (eff w) ++ [(Str "Lỗi kết nối server", "error")]))
  ∧ ((∀ data,
        env (requests (eff w) ++ [Actions.login_request email password])
          ≠ Response true (Some data)) →
     sess (handleLogin env user_initial email password w).2 = sess w
     ∧ ∃ msg, toasts (eff (handleLogin env user_initial email password w).2)
              = toasts (eff w) ++ [(msg, "error")]).
Proof.
  rewrite handleLogin_unfold. cbn zeta. cbn [requests log_request].
  repeat apply conj.
  - exists (Actions.login_request email password).
    split; [| by repeat split].
    destruct (env _) as [|[] [b|]]; try reflexivity.
    by destruct (updateAuthUI_throws user_initial (body_user b)).
  - intros data H. rewrite H.
    destruct (updateAuthUI_throws user_initial (body_user data)); simpl;
      (split; [reflexivity |]); (split; [reflexivity |]);
      (split; [reflexivity |]);
      (split; [rewrite lookup_insert_ne by discriminate;
               apply lookup_insert_eq |]);
      (split; [apply lookup_insert_eq |]);
      split; intros E; try discriminate E; split; reflexivity.
  - intros H. destruct (env _) as [|[] [b|]] eqn:E; simpl;
      try (split; [reflexivity | eexists; reflexivity]).
    by destruct (H b).
Qed.

End LoginFacts.

(** ** The further properties at the sample data *)

Section MoreInstances.
Import Session Samples MoreSamples.

Lemma proxy_rejects_other_methods_witness :
  Proxy.in_method probe ≠ "POST"
  ∧ Proxy.res_status (Proxy.answer (Proxy.fetch npoint_ok backend_ok refusal probe))
    = 405
  ∧ Proxy.sent (Proxy.fetch npoint_ok backend_ok refusal probe) = [].
Proof.
  assert (H : Proxy.in_method probe ≠ "POST") by discriminate.
  split; [exact H |].
  rewrite (proj1 (proxy_rejects_other_methods npoint_ok backend_ok refusal probe) H).
  split; reflexivity.
Defined.

Lemma proxy_target_fixed_witness :
  Proxy.forward_request webhook "https://fourt.io.vn" "{}"
    ∈ Proxy.sent (Proxy.fetch npoint_ok backend_ok refusal webhook)
  ∧ Proxy.out_url (Proxy.forward_request webhook "https://fourt.io.vn" "{}")
    = "https://fourt.io.vn/sepay/webhook".
Proof.
  assert (H : Proxy.forward_request webhook "https://fourt.io.vn" "{}"
              ∈ Proxy.sent (Proxy.fetch npoint_ok backend_ok refusal webhook)).
  { apply list_elem_of_further, list_elem_of_here. }
  split; [exact H |].
  destruct (proj1 (proj2
    (proxy_target_fixed npoint_ok backend_ok refusal webhook 200
       Undefined (Str "https://tunnel.example.org") Undefined Undefined Undefined
       Null Null Null Null ["cloudflare_url"] [])) _ H) as [E | E].
  - discriminate E.
  - exact E.
Defined.

Lemma proxy_passes_through_witness :
  Proxy.in_method webhook = "POST"
  ∧ Proxy.status_allows_body 200 = true
  ∧ ∃ fwd,
      Proxy.sent (Proxy.fetch npoint_ok backend_ok refusal webhook)
        = [Proxy.config_request; fwd]
      ∧ Proxy.out_headers fwd !! "Authorization" = Some "Apikey k1"
      ∧ Proxy.res_status
          (Proxy.answer (Proxy.fetch npoint_ok backend_ok refusal webhook))
        = 200
      ∧ Proxy.res_body
          (Proxy.answer (Proxy.fetch npoint_ok backend_ok refusal webhook))
        = Proxy.Raw "done".
Proof.
  split; [reflexivity |]. split; [reflexivity |].
  destruct (proxy_passes_through npoint_ok backend_ok refusal webhook 200
              tunnel_config "{}" "done" 200
              eq_refl eq_refl eq_refl eq_refl eq_refl)
    as (fwd & Hs & _ & _ & _ & Ha & Hst & Hb & _).
  exists fwd. repeat split; assumption.
Defined.

Lemma session_tokens_mirror_storage_witness :
  Actions.tokens_stored (sess logged_in_world)
  ∧ accessToken (sess (Actions.run strict_server true logged_in_world busy_day))
    = Str "a2"
  ∧ accessToken
      (Actions.reload (sess (Actions.run strict_server true logged_in_world busy_day)))
    = Str "a2"
  ∧ refreshToken
      (Actions.reload (sess (Actions.run strict_server true logged_in_world busy_day)))
    = Str "r2".
Proof.
  assert (H : Actions.tokens_stored (sess logged_in_world)).
  { split; left; reflexivity. }
  assert (Ha : accessToken (sess (Actions.run strict_server true logged_in_world busy_day))
               = Str "a2") by (vm_compute; reflexivity).
  assert (Hr : refreshToken (sess (Actions.run strict_server true logged_in_world busy_day))
               = Str "r2") by (vm_compute; reflexivity).
  destruct (session_tokens_mirror_storage strict_server true busy_day)
    as (_ & _ & Hacc & Href).
  split; [exact H |]. split; [exact Ha |].
  split; [exact (Hacc _ _ H Ha) | exact (Href _ _ H Hr)].
Defined.

Lemma logout_survives_reload_witness :
  "fourt_language" ≠ "access_token" ∧ "fourt_language" ≠ "refresh_token"
  ∧ localStorage (sess (logout true logged_in_world).2) !! "fourt_language"
    = localStorage (sess logged_in_world) !! "fourt_language"
  ∧ accessToken (Actions.reload (sess (logout true logged_in_world).2)) = Null.
Proof.
  assert (H1 : "fourt_language" ≠ "access_token") by discriminate.
  assert (H2 : "fourt_language" ≠ "refresh_token") by discriminate.
  destruct (logout_survives_reload server true logged_in_world no_effects)
    as (Ha & _ & _ & _ & Hk).
  split; [exact H1 |]. split; [exact H2 |].
  split; [exact (Hk _ H1 H2) | exact Ha].
Defined.

Lemma checkAuth_outcomes_witness :
  (present (accessToken (sess fresh_world)) = false
   ∧ requests (eff (checkAuth server true fresh_world).2) = [])
  ∧ (present (accessToken (sess logged_in_world)) = true
     ∧ currentUser (sess (checkAuth server true logged_in_world).2) = Some alice)
  ∧ (present (refreshToken (sess logged_in_world)) = true
     ∧ accessToken (sess (checkAuth strict_server true logged_in_world).2) = Str "a2"
     ∧ spawned (eff (checkAuth strict_server true logged_in_world).2) = ["checkAuth"])
  ∧ sess (checkAuth offline_refresh true logged_in_world).2
    = mkSession None Null Null
        (delete "refresh_token"
           (delete "access_token" (localStorage (sess logged_in_world)))).
Proof.
  destruct (checkAuth_outcomes server true fresh_world) as (Hnone & _).
  destruct (checkAuth_outcomes server true logged_in_world) as (_ & Hme & _).
  destruct (checkAuth_outcomes strict_server true logged_in_world)
    as (_ & _ & _ & Hrot).
  destruct (checkAuth_outcomes offline_refresh true logged_in_world)
    as (_ & _ & Hout & _).
  split; [split; [reflexivity | exact (proj1 (Hnone eq_refl))] |].
  split.
  { split; [reflexivity |].
    rewrite (Hme me_body eq_refl ltac:(vm_compute; reflexivity)). reflexivity. }
  split.
  { split; [reflexivity |].
    destruct (Hrot (Some denied_body) rotated_body eq_refl
                ltac:(vm_compute; reflexivity) eq_refl
                ltac:(vm_compute; reflexivity))
      as (Ha & _ & _ & Hs).
    split; [exact Ha | exact Hs]. }
  apply (Hout (Some denied_body) eq_refl ltac:(vm_compute; reflexivity)).
  right. exists (Some denied_body). vm_compute. reflexivity.
Defined.

Lemma addComment_sends_iff_not_blank_witness :
  (forallb is_whitespace spaces = true
   ∧ addComment server 7 spaces logged_in_world = (tt, logged_in_world))
  ∧ (forallb is_whitespace hello = false
     ∧ ∃ rq content,
         requests (eff (addComment server 7 hello logged_in_world).2)
           = requests (eff logged_in_world) ++ [rq]
         ∧ req_body rq = Some (BodyContent content)
         ∧ content ≠ []).
Proof.
  destruct (addComment_sends_iff_not_blank server 7 spaces logged_in_world)
    as (Hblank & _).
  destruct (addComment_sends_iff_not_blank server 7 hello logged_in_world)
    as (_ & Hsend).
  split; [split; [reflexivity | exact (Hblank eq_refl)] |].
  split; [reflexivity |].
  destruct (Hsend eq_refl) as (rq & content & Hlog & _ & _ & Hbody & Hne & _).
  exists rq, content. repeat split; assumption.
Defined.

Lemma getDownloadCost_outside_prototype_witness :
  Js.inherited "guest" = false ∧ Js.inherited "midi" = false
  ∧ (∃ n, Pricing.getDownloadCost "guest" "midi" = Js.VNum n ∧ 0 ≤ n ≤ 15)
  ∧ Pricing.baseCosts !! "midi" = None
  ∧ Pricing.getDownloadCost "guest" "midi"
    = Pricing.getDownloadCost "guest" "normal".
Proof.
  destruct (getDownloadCost_outside_prototype "guest" "midi" eq_refl eq_refl)
    as (Hn & Hty & _).
  split; [reflexivity |]. split; [reflexivity |]. split; [exact Hn |].
  split; [reflexivity | exact (Hty eq_refl)].
Defined.

Lemma player_never_overlaps_witness :
  Player.isPlaying
    (Player.player_run true always_plays Player.initial_player listening) = true
  ∧ is_Some (Player.currentlyPlayingId
               (Player.player_run true always_plays Player.initial_player
                  listening)).
Proof.
  assert (H : Player.isPlaying
                (Player.player_run true always_plays Player.initial_player
                   listening) = true) by reflexivity.
  split; [exact H |].
  exact (proj2 (proj2 (player_never_overlaps true always_plays listening)) H).
Defined.

Lemma togglePlay_pauses_and_resumes_witness :
  (Player.has_track Player.initial_player = false
   ∧ Player.togglePlay true always_plays Player.initial_player
     = Some Player.initial_player)
  ∧ (Player.currentlyPlayingId paused = Some 7%N
     ∧ 7%N ≠ 0%N
     ∧ always_plays (Player.preview_url 7) = true
     ∧ ∃ p1 p2,
         Player.togglePlay true always_plays paused = Some p1
         ∧ Player.togglePlay true always_plays p1 = Some p2
         ∧ Player.isPlaying p1 = true ∧ Player.isPlaying p2 = false
         ∧ Player.currentlyPlayingId p2 = Some 7%N).
Proof.
  destruct (togglePlay_pauses_and_resumes true always_plays Player.initial_player)
    as (Hnone & _).
  destruct (togglePlay_pauses_and_resumes true always_plays paused)
    as (_ & Htrack).
  split; [split; [reflexivity | exact (Hnone eq_refl)] |].
  assert (Hne : 7%N ≠ 0%N) by discriminate.
  split; [reflexivity |]. split; [exact Hne |]. split; [reflexivity |].
  destruct (Htrack 7%N eq_refl Hne eq_refl eq_refl)
    as (p1 & p2 & H1 & H2 & Hf1 & Hf2 & _ & Hid2 & _).
  exists p1, p2. repeat split; assumption.
Defined.

Lemma renderPagination_covers_witness :
  0 ≤ 25 < 2 ^ 53 ∧ 0 < 12 < 2 ^ 53 ∧ 25 ≤ Helpers.max_buttons * 12
  ∧ ∃ buttons,
      Helpers.renderPagination 25 2 12 = Some buttons
      ∧ buttons.*1 = seqZ 1 (Z.of_nat (length buttons))
      ∧ (buttons ≠ [] → 25 ≤ Z.of_nat (length buttons) * 12).
Proof.
  assert (H0 : 0 ≤ 25 < 2 ^ 53) by (split; [discriminate | reflexivity]).
  assert (H1 : 0 < 12 < 2 ^ 53) by (split; reflexivity).
  assert (H2 : 25 ≤ Helpers.max_buttons * 12) by discriminate.
  split; [exact H0 |]. split; [exact H1 |]. split; [exact H2 |].
  destruct (renderPagination_covers 25 2 12 H0 H1 H2)
    as (buttons & Hr & _ & Hb & Hn & _).
  exists buttons. split; [exact Hr |]. split; [exact Hn |].
  intros Hne. exact (proj2 (Hb Hne)).
Defined.

Lemma formatDuration_minutes_seconds_witness :
  0 ≤ 125 < 2 ^ 53
  ∧ ∃ tens ones,
      Helpers.formatDuration 125
      = Some (pretty (125 / 60) +:+ ":" +:+ pretty tens +:+ pretty ones)
      ∧ 60 * (125 / 60) + 10 * tens + ones = 125.
Proof.
  assert (H : 0 ≤ 125 < 2 ^ 53) by (split; [discriminate | reflexivity]).
  split; [exact H |].
  destruct (formatDuration_minutes_seconds 125 H)
    as (tens & ones & _ & _ & Hf & Hv).
  exists tens, ones. split; assumption.
Defined.

Lemma formatDate_ranges_witness :
  60000 ≤ 125000 < 3600000
  ∧ ∃ n, 1 ≤ n ≤ 59
         ∧ Helpers.formatDate (Some 125000) "1/1/2026"
           = pretty n +:+ " phút trước".
Proof.
  assert (H : 60000 ≤ 125000 < 3600000) by (split; [discriminate | reflexivity]).
  split; [exact H |].
  destruct (formatDate_ranges 125000 "1/1/2026") as (_ & _ & Hmin & _).
  destruct (Hmin H) as (n & Hn & _ & Hf).
  exists n. split; assumption.
Defined.

Lemma escapeHtml_no_markup_witness :
  (60%N ∈ Helpers.escapeHtml (Some [60; 98; 62]%N) → False)
  ∧ (∀ c, c ∈ hello → c ≠ 38%N ∧ c ≠ 60%N ∧ c ≠ 62%N ∧ c ≠ 160%N)
  ∧ Helpers.escapeHtml (Some hello) = hello.
Proof.
  destruct (escapeHtml_no_markup [60; 98; 62]%N) as (Hsafe & _).
  destruct (escapeHtml_no_markup hello) as (_ & Hplain & _).
  assert (Hc : ∀ c, c ∈ hello → c ≠ 38%N ∧ c ≠ 60%N ∧ c ≠ 62%N ∧ c ≠ 160%N).
  { intros c Hin. unfold hello in Hin.
    repeat (apply elem_of_cons in Hin as [-> | Hin];
            [repeat split; discriminate |]).
    by apply elem_of_nil in Hin. }
  split; [| split; [exact Hc | exact (Hplain Hc)]].
  intros Hin. destruct (Hsafe _ Hin) as [Hne _]. by apply Hne.
Defined.

Lemma language_choices_witness :
  ("fr" ≠ "en" ∧ "fr" ≠ "vi"
   ∧ I18n.setLang "fr" english_page = english_page)
  ∧ I18n.getLang (I18n.setLang "vi" english_page) = "vi"
  ∧ (I18n.toggle_handlers english_page = 1%nat
     ∧ I18n.getLang (I18n.click english_page) = "vi").
Proof.
  assert (H1 : "fr" ≠ "en") by discriminate.
  assert (H2 : "fr" ≠ "vi") by discriminate.
  destruct (language_choices "fr" english_page) as (Hfr & _).
  destruct (language_choices "vi" english_page)
    as (_ & Hvi & _ & _ & Hclick & _).
  split; [split; [exact H1 | split; [exact H2 | exact (Hfr H1 H2)]] |].
  split; [exact (proj1 (Hvi (or_intror eq_refl))) |].
  split; [reflexivity | exact (proj1 (Hclick eq_refl))].
Defined.

Lemma handleLogin_outcomes_witness :
  (server (requests (eff fresh_world)
           ++ [Actions.login_request "alice@example.org" "secret"])
   = Response true (Some login_body)
   ∧ updateAuthUI_throws true (body_user login_body) = false
   ∧ currentUser
       (sess (handleLogin server true "alice@example.org" "secret" fresh_world).2)
     = Some alice
   ∧ modals
       (eff (handleLogin server true "alice@example.org" "secret" fresh_world).2)
     = ∅)
  ∧ (nameless_server (requests (eff fresh_world)
                      ++ [Actions.login_request "x@example.org" "secret"])
     = Response true (Some nameless_body)
     ∧ updateAuthUI_throws true (body_user nameless_body) = true
     ∧ accessToken
         (sess (handleLogin nameless_server true "x@example.org" "secret"
                  fresh_world).2)
       = Str "a9"
     ∧ toasts
         (eff (handleLogin nameless_server true "x@example.org" "secret"
                 fresh_world).2)
       = [(Str "Lỗi kết nối server", "error")])
  ∧ ((∀ data,
        offline (requests (eff fresh_world)
                 ++ [Actions.login_request "alice@example.org" "secret"])
        ≠ Response true (Some data))
     ∧ sess (handleLogin offline true "alice@example.org" "secret" fresh_world).2
       = sess fresh_world).
Proof.
  assert (Hok : server (requests (eff fresh_world)
                        ++ [Actions.login_request "alice@example.org" "secret"])
                = Response true (Some login_body)) by reflexivity.
  assert (Hnl : nameless_server
                  (requests (eff fresh_world)
                   ++ [Actions.login_request "x@example.org" "secret"])
                = Response true (Some nameless_body)) by reflexivity.
  assert (Hno : ∀ data,
            offline (requests (eff fresh_world)
                     ++ [Actions.login_request "alice@example.org" "secret"])
            ≠ Response true (Some data)) by (intros data; discriminate).
  destruct (handleLogin_outcomes server true "alice@example.org" "secret"
              fresh_world) as (_ & Hacc & _).
  destruct (handleLogin_outcomes nameless_server true "x@example.org" "secret"
              fresh_world) as (_ & Hthrow & _).
  destruct (handleLogin_outcomes offline true "alice@example.org" "secret"
              fresh_world) as (_ & _ & Hrej).
  destruct (Hacc login_body Hok) as (Hu & _ & _ & _ & _ & Hquiet & _).
  destruct (Hthrow nameless_body Hnl) as (_ & Ha & _ & _ & _ & _ & Hloud).
  split; [| split].
  - split; [exact Hok |]. split; [reflexivity |].
    split; [exact Hu | exact (proj1 (Hquiet eq_refl))].
  - split; [exact Hnl |]. split; [reflexivity |].
    split; [exact Ha | exact (proj2 (Hloud eq_refl))].
  - split; [exact Hno | exact (proj1 (Hrej Hno))].
Defined.

End MoreInstances.
